(** * @seriphxyz/react: the hook bridge over the core controllers

    A shallow embedding of [src/index.ts].  Every hook of the package has
    the same shape: a [useRef] holding the controller, a [useState]
    mirroring the controller's snapshot, one [useEffect] that constructs
    the controller, registers [setState] as its listener and returns the
    deregistration function as cleanup, and [useCallback] wrappers that
    forward to the controller through [controllerRef.current?.m(...)].

    The React runtime (render, commit, dependency comparison, cleanup
    before the next effect) is modelled once, as a state machine over a
    description of a hook ([HookSpec]); the nine hooks are nine such
    descriptions, each written next to the source lines it comes from.
    The controllers live in the external package [@seriphxyz/core]; they
    are objects in a heap with a listener registry, and everything they
    do on their own (emitting snapshots, changing the answer of their
    synchronous queries, settling promises) is an input of the machine. *)

From Stdlib Require Import ZArith List String Bool Lia.
From stdpp Require Import base option list gmap strings.
Import ListNotations.
Local Open Scope string_scope.
Local Open Scope list_scope.

(** ** Values shared by all hooks *)

(** [ControllerStatus] of the core package: the literals used by the
    source are ["idle"], ["loading"], ["success"] and ["error"]. *)
Module Status.
Inductive ControllerStatus := idle | loading | success | error.
End Status.
Abbreviation ControllerStatus := Status.ControllerStatus.

(** JavaScript's [Error]; only its identity matters to the bridge. *)
Record Error := { error_message : string }.

(** [OptionalSiteKey<SeriphConfig>]: the configuration part of every
    options object.  A missing property reads as [undefined] = [None]. *)
Record OptionalSiteKey := {
  siteKey : option string;
  endpoint : option string;
}.

(** What the bridge imports from [@seriphxyz/core] without defining it:
    the resolved configuration and [resolveConfig], the payload types,
    and TypeScript's [unknown] for the values of a form record.
    [resolveConfig] is handed the options object whole; it is taken at
    its declared type, as a function of the [siteKey] and the [endpoint]
    of that object. *)
Record Core := {
  Config : Type;
  resolveConfig : OptionalSiteKey -> Config;
  Comment : Type;
  Announcement : Type;
  PollWithResults : Type;
  FeedbackType : Type;
  unknown : Type;
}.

(** ** Promises and completions

    A promise is given by the tick at which it settles and its outcome;
    [None] is a promise that never settles.  A call completes by throwing
    or by returning a value, which for the bridge is either a promise or
    [undefined]. *)
Inductive Outcome := Fulfilled | Rejected (e : Error).

Definition Promise : Type := option (nat * Outcome).

Inductive Completion :=
| Throws (e : Error)
| Returns (v : option Promise).

(** [async (...) => { await controllerRef.current?.m(...); }] called at
    tick [now].  [r] is [None] when the optional chain short-circuits on
    a null reference, and otherwise the completion of the controller's
    method.  An async function never throws to its caller: it returns a
    promise, rejected with the very error that was thrown or with which
    the awaited promise was rejected, and fulfilled (with [undefined])
    one tick after the awaited promise is fulfilled. *)
Definition async_await (now : nat) (r : option Completion) : Completion :=
  Returns (Some
    match r with
    | None => Some (S now, Fulfilled)
    | Some (Throws e) => Some (now, Rejected e)
    | Some (Returns None) => Some (S now, Fulfilled)
    | Some (Returns (Some None)) => None
    | Some (Returns (Some (Some (t, o)))) => Some (S (Nat.max now t), o)
    end).

(** [() => { controllerRef.current?.reset(); }]: a plain call, whose
    result is dropped and whose exception, if any, reaches the caller. *)
Definition sync_call (r : option Completion) : Completion :=
  match r with
  | Some (Throws e) => Throws e
  | _ => Returns None
  end.

(** ** The shape of a hook *)

(** The only listener the bridge ever registers is the setter of its
    [useState]. *)
Inductive Listener := setState.

#[global] Instance Listener_eq_dec : EqDecision Listener :=
  fun x y => match x, y with setState, setState => left eq_refl end.

Record HookSpec (core : Core) := {
  (** the [Use...Options] interface *)
  Options : Type;
  (** the snapshot type, [...State] of the core package *)
  State : Type;
  (** the data fields of the returned object *)
  Return : Type;
  (** the functions of the returned object, with their arguments *)
  Action : Type;
  (** the controller methods the hook calls, with their arguments *)
  Method : Type;
  (** the answer of the controller's synchronous query read while
      rendering ([hasVoted()], [getVisibleAnnouncements()]) *)
  Answer : Type;
  (** the argument of [useState] *)
  initialState : Options -> State;
  (** the options object as [resolveConfig] sees it *)
  config_of : Options -> OptionalSiteKey;
  (** the constructor arguments after [config] *)
  ctor_args : Options -> list string;
  (** the dependency array of the effect *)
  deps : Options -> list (option string);
  (** the call made by the effect after subscribing, if any *)
  autoTrigger : Options -> option Method;
  (** the controller method a returned function forwards to *)
  forward : Action -> Method;
  (** whether the returned function is an [async] arrow *)
  is_async : Action -> bool;
  (** the data fields of the [return] statement, from [state] and from
      [controllerRef.current?.query()] *)
  returned : State -> option Answer -> Return;
}.

Arguments Options {core} _.
Arguments State {core} _.
Arguments Return {core} _.
Arguments Action {core} _.
Arguments Method {core} _.
Arguments Answer {core} _.
Arguments initialState {core} _ _.
Arguments config_of {core} _ _.
Arguments ctor_args {core} _ _.
Arguments deps {core} _ _.
Arguments autoTrigger {core} _ _.
Arguments forward {core} _ _.
Arguments is_async {core} _ _.
Arguments returned {core} _ _ _.

(** [options.autoFetch !== false] on an optional boolean. *)
Definition not_false (flag : option bool) : bool :=
  match flag with
  | Some false => false
  | _ => true
  end.

(** ** The runtime: one hook instance and the controllers it created *)

Section Runtime.
Context {core : Core}.
Variable H : HookSpec core.

(** [born config args]: what a controller answers to the synchronous
    query right after [new Controller(config, ...args)].  It belongs to
    the core package, like everything else a controller decides. *)
Variable born : Config core -> list string -> Answer H.

(** A controller object: its constructor arguments, the listeners
    registered through [subscribe], and the current answer of its
    synchronous query.  [made_with] is the options object captured by
    the closure of the effect that constructed it; the controller never
    sees it, it is kept to speak about the construction afterwards. *)
Record Controller := {
  config : Config core;
  args : list string;
  made_with : Options H;
  listeners : list Listener;
  answer : Answer H;
}.

(** Where the component is in its life: not yet committed, committed
    with the dependency array of its effect and the cleanup the effect
    returned (the deregistration function of controller [cleanup]), or
    unmounted. *)
Inductive Phase :=
| Initial
| Mounted (last_deps : list (option string)) (cleanup : nat)
| Unmounted.

Record Bridge := {
  controllerRef : option nat;
  state : State H;
  phase : Phase;
  (** the data fields returned by the last call of the hook *)
  rendered : option (Return H);
  (** [setState] has been called since the last call of the hook.  React
      then calls the hook again, unless the value it was given is the
      very object it holds already ([Object.is]), in which case it drops
      the update; snapshots are values here, which do not tell the two
      cases apart.  While this is [false] no render is queued. *)
  pending : bool;
  (** the controller objects, addressed by their allocation index *)
  heap : list Controller;
}.

Definition set_ref (c : nat) (b : Bridge) : Bridge :=
  {| controllerRef := Some c; state := state b; phase := phase b;
     rendered := rendered b; pending := pending b; heap := heap b |}.

(** [setState(s)] on a mounted component: [s] is the state of the next
    call of the hook, and the call of [setState] is recorded. *)
Definition set_state (s : State H) (b : Bridge) : Bridge :=
  {| controllerRef := controllerRef b; state := s; phase := phase b;
     rendered := rendered b; pending := true; heap := heap b |}.

Definition set_phase (p : Phase) (b : Bridge) : Bridge :=
  {| controllerRef := controllerRef b; state := state b; phase := p;
     rendered := rendered b; pending := pending b; heap := heap b |}.

(** A call of the hook hands [r] to the consumer and uses up the queued
    updates. *)
Definition set_rendered (r : Return H) (b : Bridge) : Bridge :=
  {| controllerRef := controllerRef b; state := state b; phase := phase b;
     rendered := Some r; pending := false; heap := heap b |}.

Definition set_heap (h : list Controller) (b : Bridge) : Bridge :=
  {| controllerRef := controllerRef b; state := state b; phase := phase b;
     rendered := rendered b; pending := pending b; heap := h |}.

Definition set_listeners (ls : list Listener) (k : Controller) : Controller :=
  {| config := config k; args := args k; made_with := made_with k;
     listeners := ls; answer := answer k |}.

Definition set_answer (a : Answer H) (k : Controller) : Controller :=
  {| config := config k; args := args k; made_with := made_with k;
     listeners := listeners k; answer := a |}.

(** What is visible from outside the bridge, in the order it happens. *)
Inductive Origin := ByEffect | ByAction.

Inductive Event :=
| Constructed (c : nat) (cfg : Config core) (ids : list string)
| RefAssigned (c : nat)
| Subscribed (c : nat) (l : Listener)
| Unsubscribed (c : nat) (l : Listener)
| Called (by_ : Origin) (c : nat) (m : Method H).

(** What happens to the bridge. *)
Inductive Input :=
(** React calls the hook with these options and commits the render *)
| Render (o : Options H)
(** React unmounts the component *)
| Unmount
(** the consumer calls a returned function at tick [now]; [reply] is
    how the controller's method completes if it is reached *)
| Invoke (a : Action H) (now : nat) (reply : Completion)
(** controller [c] notifies its listeners with snapshot [s] *)
| Emit (c : nat) (s : State H)
(** controller [c] changes so that its synchronous query answers [a] *)
| Internal (c : nat) (a : Answer H).

(** [Object.is] on a dependency, and React's comparison of two
    dependency arrays. *)
Definition Object_is (x y : option string) : bool := bool_decide (x = y).

Fixpoint areHookInputsEqual (next prev : list (option string)) : bool :=
  match next, prev with
  | x :: next', y :: prev' => Object_is x y && areHookInputsEqual next' prev'
  | _, _ => true
  end.

(** [controllerRef.current?.query()] *)
Definition query (b : Bridge) : option (Answer H) :=
  match controllerRef b with
  | Some c => answer <$> heap b !! c
  | None => None
  end.

(** The body of the hook up to its [return]: nothing but reads. *)
Definition call_hook (b : Bridge) : Return H :=
  returned H (state b) (query b).

(** The listener called with [s]: [setState(s)]; React drops updates of
    an unmounted component. *)
Definition notify (l : Listener) (s : State H) (b : Bridge) : Bridge :=
  match l, phase b with
  | setState, Unmounted => b
  | setState, _ => set_state s b
  end.

(** [controller.subscribe(l)] and the function it returns. *)
Definition subscribe (c : nat) (l : Listener) (b : Bridge) : Bridge :=
  match heap b !! c with
  | Some k => set_heap (<[c := set_listeners (l :: listeners k) k]> (heap b)) b
  | None => b
  end.

Definition remove_listener (l : Listener) (ls : list Listener) : list Listener :=
  filter (fun l' => l' <> l) ls.

Definition unsubscribe (c : nat) (l : Listener) (b : Bridge) : Bridge :=
  match heap b !! c with
  | Some k =>
      set_heap (<[c := set_listeners (remove_listener l (listeners k)) k]> (heap b)) b
  | None => b
  end.

(** The cleanup of the committed effect, if there is one: the function
    [controller.subscribe(setState)] returned. *)
Definition run_cleanup (b : Bridge) : Bridge * list Event :=
  match phase b with
  | Mounted _ c => (unsubscribe c setState b, [Unsubscribed c setState])
  | _ => (b, [])
  end.

(** The body of the effect, run with the options of the render that is
    being committed:
    [const config = resolveConfig(options);]
    [const controller = new Controller(config, ...ids);]
    [controllerRef.current = controller;]
    [const unsubscribe = controller.subscribe(setState);]
    [if (options.auto !== false) controller.read();]
    [return unsubscribe;] *)
Definition run_effect (o : Options H) (b : Bridge) : Bridge * list Event :=
  let cfg := resolveConfig core (config_of H o) in
  let ids := ctor_args H o in
  let c := length (heap b) in
  let controller :=
    {| config := cfg; args := ids; made_with := o; listeners := [];
       answer := born cfg ids |} in
  let b1 := set_heap (heap b ++ [controller]) b in
  let b2 := set_ref c b1 in
  let b3 := subscribe c setState b2 in
  let auto :=
    match autoTrigger H o with
    | Some m => [Called ByEffect c m]
    | None => []
    end in
  (set_phase (Mounted (deps H o) c) b3,
   [Constructed c cfg ids; RefAssigned c; Subscribed c setState] ++ auto).

(** Commit of a render with options [o]: on the first commit the effect
    runs; afterwards it runs again, after the cleanup of the previous
    one, only when the dependency arrays differ. *)
Definition commit (o : Options H) (b : Bridge) : Bridge * list Event :=
  match phase b with
  | Initial => run_effect o b
  | Mounted last _ =>
      if areHookInputsEqual (deps H o) last then (b, [])
      else
        let '(b1, ev1) := run_cleanup b in
        let '(b2, ev2) := run_effect o b1 in
        (b2, ev1 ++ ev2)
  | Unmounted => (b, [])
  end.

Definition render (o : Options H) (b : Bridge) : Bridge * list Event :=
  match phase b with
  | Unmounted => (b, [])
  | _ => commit o (set_rendered (call_hook b) b)
  end.

Definition unmount (b : Bridge) : Bridge * list Event :=
  let '(b1, ev) := run_cleanup b in
  (set_phase Unmounted b1, ev).

(** A returned function called by the consumer: the optional chain on
    [controllerRef.current], then [await] or nothing. *)
Definition finish (a : Action H) (now : nat) (r : option Completion) : Completion :=
  if is_async H a then async_await now r else sync_call r.

Definition invoke (a : Action H) (now : nat) (reply : Completion) (b : Bridge)
  : list Event * Completion :=
  match controllerRef b with
  | Some c => ([Called ByAction c (forward H a)], finish a now (Some reply))
  | None => ([], finish a now None)
  end.

(** A controller notifying: every registered listener is called with the
    snapshot. *)
Definition emit (c : nat) (s : State H) (b : Bridge) : Bridge :=
  match heap b !! c with
  | Some k => fold_right (fun l b' => notify l s b') b (listeners k)
  | None => b
  end.

Definition internal (c : nat) (a : Answer H) (b : Bridge) : Bridge :=
  match heap b !! c with
  | Some k => set_heap (<[c := set_answer a k]> (heap b)) b
  | None => b
  end.

Definition step (i : Input) (b : Bridge) : Bridge * list Event :=
  match i with
  | Render o => render o b
  | Unmount => unmount b
  | Invoke a now reply => (b, fst (invoke a now reply b))
  | Emit c s => (emit c s b, [])
  | Internal c a => (internal c a b, [])
  end.

(** A run: the inputs in order, with the trace of events they produce. *)
Fixpoint run (inputs : list Input) (b : Bridge) : Bridge * list Event :=
  match inputs with
  | [] => (b, [])
  | i :: rest =>
      let '(b1, ev1) := step i b in
      let '(b2, ev2) := run rest b1 in
      (b2, ev1 ++ ev2)
  end.

(** The instance as the first call of the hook creates it:
    [useRef(null)], [useState(initial)]. *)
Definition create (o : Options H) : Bridge :=
  {| controllerRef := None; state := initialState H o; phase := Initial;
     rendered := None; pending := false; heap := [] |}.

(** The life of a component: mounted with options [o], then [inputs].
    The mount runs the effect once, as React does in production and
    outside [StrictMode]; for the mount of a development build under
    [StrictMode] see [strict_life]. *)
Definition life (o : Options H) (inputs : list Input) : Bridge * list Event :=
  run (Render o :: inputs) (create o).

(** The mount of a development build under [React.StrictMode]: after
    the first commit React runs the cleanup of the effect and then the
    effect once more, with the same options; the reference and the
    state are kept. *)
Definition strict_mount (o : Options H) : Bridge * list Event :=
  let '(b1, ev1) := render o (create o) in
  let '(b2, ev2) := run_cleanup b1 in
  let '(b3, ev3) := run_effect o b2 in
  (b3, ev1 ++ ev2 ++ ev3).

(** The life of a component mounted that way. *)
Definition strict_life (o : Options H) (inputs : list Input) : Bridge * list Event :=
  let '(b, ev) := strict_mount o in
  let '(b', ev') := run inputs b in
  (b', ev ++ ev').

End Runtime.

Arguments Controller {core} H.
Arguments Bridge {core} H.
Arguments Event {core} H.
Arguments Input {core} H.
Arguments Phase : clear implicits.
Arguments Initial : clear implicits.
Arguments Mounted : clear implicits.
Arguments Unmounted : clear implicits.

(** ** The nine hooks

    One module per hook holds its interfaces: the options, the snapshot
    (state) of its controller, the data fields it returns, the functions
    it returns ([Action]) and the controller methods it calls
    ([Ctl.Method]).  Where the source returns [{ ...state, f, g }] the
    data fields of the result are the snapshot itself. *)

Module Subscribe.
(** [interface UseSubscribeOptions extends OptionalSiteKey<SeriphConfig> {}] *)
Definition UseSubscribeOptions : Type := OptionalSiteKey.
Record SubscribeState := {
  status : ControllerStatus;
  message : option string;
  error : option Error;
}.
Module Ctl.
Inductive Method := submit (email : string) | reset.
End Ctl.
Inductive Action := subscribe (email : string) | reset.
End Subscribe.

Module Form.
Record UseFormOptions := {
  base : OptionalSiteKey;
  formSlug : string;
}.
Record FormState := {
  status : ControllerStatus;
  message : option string;
  error : option Error;
}.
Module Ctl.
Inductive Method (unknown : Type) := submit (data : gmap string unknown) | reset.
Arguments submit {unknown} data.
Arguments reset {unknown}.
End Ctl.
Inductive Action (unknown : Type) := submit (data : gmap string unknown) | reset.
Arguments submit {unknown} data.
Arguments reset {unknown}.
End Form.

Module Reactions.
Record UseReactionsOptions := {
  base : OptionalSiteKey;
  contentId : string;
  autoFetch : option bool;
}.
Record ReactionsState := {
  counts : gmap string Z;
  userReactions : list string;
  status : ControllerStatus;
  error : option Error;
}.
Module Ctl.
Inductive Method := add (type : string) | remove (type : string) | fetch.
End Ctl.
Inductive Action := addReaction (type : string) | removeReaction (type : string) | refresh.
End Reactions.

Module Comments.
Record UseCommentsOptions := {
  base : OptionalSiteKey;
  contentId : string;
  autoFetch : option bool;
}.
Record CommentsState (Comment : Type) := {
  comments : list Comment;
  status : ControllerStatus;
  error : option Error;
}.
Arguments comments {Comment} _.
Arguments status {Comment} _.
Arguments error {Comment} _.
(** [options?: { authorEmail?: string; parentId?: string }] *)
Record PostOptions := {
  authorEmail : option string;
  parentId : option string;
}.
Module Ctl.
Inductive Method :=
| post (author content : string) (options : option PostOptions)
| fetch.
End Ctl.
Inductive Action :=
| postComment (author content : string) (options : option PostOptions)
| refresh.
End Comments.

Module Waitlist.
Definition UseWaitlistOptions : Type := OptionalSiteKey.
Record WaitlistState := {
  status : ControllerStatus;
  message : option string;
  position : option Z;
  error : option Error;
}.
(** [options?: { name?: string; source?: string }] *)
Record JoinOptions := {
  name : option string;
  source : option string;
}.
Module Ctl.
Inductive Method := join (email : string) (opts : option JoinOptions) | reset.
End Ctl.
Inductive Action := join (email : string) (opts : option JoinOptions) | reset.
End Waitlist.

Module Views.
Record UseViewsOptions := {
  base : OptionalSiteKey;
  pageId : string;
  autoRecord : option bool;
}.
Module St.
Record ViewCountsState := {
  pageId : string;
  views : Z;
  uniqueVisitors : Z;
  status : ControllerStatus;
  error : option Error;
}.
End St.
(** The data fields of [UseViewsReturn]. *)
Record UseViewsReturn := {
  views : Z;
  uniqueVisitors : Z;
  status : ControllerStatus;
  error : option Error;
}.
Module Ctl.
Inductive Method := record | fetch.
End Ctl.
Inductive Action := record | refresh.
End Views.

Module Feedback.
Definition UseFeedbackOptions : Type := OptionalSiteKey.
Record FeedbackState := {
  status : ControllerStatus;
  message : option string;
  error : option Error;
}.
(** [options?: { email?: string; pageUrl?: string }] *)
Record SubmitOptions := {
  email : option string;
  pageUrl : option string;
}.
Module Ctl.
Inductive Method (FeedbackType : Type) :=
| submit (type : FeedbackType) (content : string) (opts : option SubmitOptions)
| reset.
Arguments submit {FeedbackType} type content opts.
Arguments reset {FeedbackType}.
End Ctl.
Inductive Action (FeedbackType : Type) :=
| submit (type : FeedbackType) (content : string) (opts : option SubmitOptions)
| reset.
Arguments submit {FeedbackType} type content opts.
Arguments reset {FeedbackType}.
End Feedback.

Module Poll.
Record UsePollOptions := {
  base : OptionalSiteKey;
  slug : string;
  autoFetch : option bool;
}.
Record PollState (PollWithResults : Type) := {
  poll : option PollWithResults;
  status : ControllerStatus;
  error : option Error;
}.
Arguments poll {PollWithResults} _.
Arguments status {PollWithResults} _.
Arguments error {PollWithResults} _.
(** The data fields of [UsePollReturn]: [{ ...state, hasVoted }]. *)
Record UsePollReturn (PollWithResults : Type) := {
  spread : PollState PollWithResults;
  hasVoted : bool;
}.
Arguments spread {PollWithResults} _.
Arguments hasVoted {PollWithResults} _.
Module Ctl.
Inductive Method := vote (selectedOptions : list string) | fetch.
End Ctl.
Inductive Action := vote (selectedOptions : list string) | refresh.
End Poll.

Module Announcements.
Record UseAnnouncementsOptions := {
  base : OptionalSiteKey;
  autoFetch : option bool;
}.
Module St.
Record AnnouncementsState (Announcement : Type) := {
  announcements : list Announcement;
  dismissed : gset Z;
  status : ControllerStatus;
  error : option Error;
}.
Arguments announcements {Announcement} _.
Arguments dismissed {Announcement} _.
Arguments status {Announcement} _.
Arguments error {Announcement} _.
End St.
(** The data fields of [UseAnnouncementsReturn]. *)
Record UseAnnouncementsReturn (Announcement : Type) := {
  announcements : list Announcement;
  status : ControllerStatus;
  error : option Error;
}.
Arguments announcements {Announcement} _.
Arguments status {Announcement} _.
Arguments error {Announcement} _.
Module Ctl.
Inductive Method := dismiss (announcementId : Z) | fetch.
End Ctl.
Inductive Action := dismiss (announcementId : Z) | refresh.
End Announcements.

(** The features of the package. *)
Module Feature.
Inductive t :=
| subscribe | form | reactions | comments | waitlist
| views | feedback | poll | announcements.
End Feature.

Section Hooks.
Context (core : Core).

(** [useSubscribe], index.ts lines 130-156. *)
Definition useSubscribe : HookSpec core := {|
  Options := Subscribe.UseSubscribeOptions;
  State := Subscribe.SubscribeState;
  Return := Subscribe.SubscribeState;
  Action := Subscribe.Action;
  Method := Subscribe.Ctl.Method;
  Answer := unit;
  initialState := fun _ =>
    {| Subscribe.status := Status.idle; Subscribe.message := None;
       Subscribe.error := None |};
  config_of := fun options => options;
  ctor_args := fun _ => [];
  deps := fun options => [siteKey options; endpoint options];
  autoTrigger := fun _ => None;
  forward := fun a =>
    match a with
    | Subscribe.subscribe email => Subscribe.Ctl.submit email
    | Subscribe.reset => Subscribe.Ctl.reset
    end;
  is_async := fun a =>
    match a with
    | Subscribe.subscribe _ => true
    | Subscribe.reset => false
    end;
  returned := fun state _ => state;
|}.

(** [useForm], lines 192-218. *)
Definition useForm : HookSpec core := {|
  Options := Form.UseFormOptions;
  State := Form.FormState;
  Return := Form.FormState;
  Action := Form.Action (unknown core);
  Method := Form.Ctl.Method (unknown core);
  Answer := unit;
  initialState := fun _ =>
    {| Form.status := Status.idle; Form.message := None; Form.error := None |};
  config_of := fun options => Form.base options;
  ctor_args := fun options => [Form.formSlug options];
  deps := fun options =>
    [siteKey (Form.base options); endpoint (Form.base options);
     Some (Form.formSlug options)];
  autoTrigger := fun _ => None;
  forward := fun a =>
    match a with
    | Form.submit data => Form.Ctl.submit data
    | Form.reset => Form.Ctl.reset
    end;
  is_async := fun a =>
    match a with
    | Form.submit _ => true
    | Form.reset => false
    end;
  returned := fun state _ => state;
|}.

(** [useReactions], lines 256-293. *)
Definition useReactions : HookSpec core := {|
  Options := Reactions.UseReactionsOptions;
  State := Reactions.ReactionsState;
  Return := Reactions.ReactionsState;
  Action := Reactions.Action;
  Method := Reactions.Ctl.Method;
  Answer := unit;
  initialState := fun _ =>
    {| Reactions.counts := ∅; Reactions.userReactions := [];
       Reactions.status := Status.idle; Reactions.error := None |};
  config_of := fun options => Reactions.base options;
  ctor_args := fun options => [Reactions.contentId options];
  deps := fun options =>
    [siteKey (Reactions.base options); endpoint (Reactions.base options);
     Some (Reactions.contentId options)];
  autoTrigger := fun options =>
    if not_false (Reactions.autoFetch options) then Some Reactions.Ctl.fetch
    else None;
  forward := fun a =>
    match a with
    | Reactions.addReaction type => Reactions.Ctl.add type
    | Reactions.removeReaction type => Reactions.Ctl.remove type
    | Reactions.refresh => Reactions.Ctl.fetch
    end;
  is_async := fun _ => true;
  returned := fun state _ => state;
|}.

(** [useComments], lines 335-367. *)
Definition useComments : HookSpec core := {|
  Options := Comments.UseCommentsOptions;
  State := Comments.CommentsState (Comment core);
  Return := Comments.CommentsState (Comment core);
  Action := Comments.Action;
  Method := Comments.Ctl.Method;
  Answer := unit;
  initialState := fun _ =>
    {| Comments.comments := []; Comments.status := Status.idle;
       Comments.error := None |};
  config_of := fun options => Comments.base options;
  ctor_args := fun options => [Comments.contentId options];
  deps := fun options =>
    [siteKey (Comments.base options); endpoint (Comments.base options);
     Some (Comments.contentId options)];
  autoTrigger := fun options =>
    if not_false (Comments.autoFetch options) then Some Comments.Ctl.fetch
    else None;
  forward := fun a =>
    match a with
    | Comments.postComment author content options =>
        Comments.Ctl.post author content options
    | Comments.refresh => Comments.Ctl.fetch
    end;
  is_async := fun _ => true;
  returned := fun state _ => state;
|}.

(** [useWaitlist], lines 397-424. *)
Definition useWaitlist : HookSpec core := {|
  Options := Waitlist.UseWaitlistOptions;
  State := Waitlist.WaitlistState;
  Return := Waitlist.WaitlistState;
  Action := Waitlist.Action;
  Method := Waitlist.Ctl.Method;
  Answer := unit;
  initialState := fun _ =>
    {| Waitlist.status := Status.idle; Waitlist.message := None;
       Waitlist.position := None; Waitlist.error := None |};
  config_of := fun options => options;
  ctor_args := fun _ => [];
  deps := fun options => [siteKey options; endpoint options];
  autoTrigger := fun _ => None;
  forward := fun a =>
    match a with
    | Waitlist.join email opts => Waitlist.Ctl.join email opts
    | Waitlist.reset => Waitlist.Ctl.reset
    end;
  is_async := fun a =>
    match a with
    | Waitlist.join _ _ => true
    | Waitlist.reset => false
    end;
  returned := fun state _ => state;
|}.

(** [useViews], lines 459-493. *)
Definition useViews : HookSpec core := {|
  Options := Views.UseViewsOptions;
  State := Views.St.ViewCountsState;
  Return := Views.UseViewsReturn;
  Action := Views.Action;
  Method := Views.Ctl.Method;
  Answer := unit;
  initialState := fun options =>
    {| Views.St.pageId := Views.pageId options; Views.St.views := 0;
       Views.St.uniqueVisitors := 0; Views.St.status := Status.idle;
       Views.St.error := None |};
  config_of := fun options => Views.base options;
  ctor_args := fun options => [Views.pageId options];
  deps := fun options =>
    [siteKey (Views.base options); endpoint (Views.base options);
     Some (Views.pageId options)];
  autoTrigger := fun options =>
    if not_false (Views.autoRecord options) then Some Views.Ctl.record
    else None;
  forward := fun a =>
    match a with
    | Views.record => Views.Ctl.record
    | Views.refresh => Views.Ctl.fetch
    end;
  is_async := fun _ => true;
  returned := fun state _ =>
    {| Views.views := Views.St.views state;
       Views.uniqueVisitors := Views.St.uniqueVisitors state;
       Views.status := Views.St.status state;
       Views.error := Views.St.error state |};
|}.

(** [useFeedback], lines 523-549. *)
Definition useFeedback : HookSpec core := {|
  Options := Feedback.UseFeedbackOptions;
  State := Feedback.FeedbackState;
  Return := Feedback.FeedbackState;
  Action := Feedback.Action (FeedbackType core);
  Method := Feedback.Ctl.Method (FeedbackType core);
  Answer := unit;
  initialState := fun _ =>
    {| Feedback.status := Status.idle; Feedback.message := None;
       Feedback.error := None |};
  config_of := fun options => options;
  ctor_args := fun _ => [];
  deps := fun options => [siteKey options; endpoint options];
  autoTrigger := fun _ => None;
  forward := fun a =>
    match a with
    | Feedback.submit type content opts => Feedback.Ctl.submit type content opts
    | Feedback.reset => Feedback.Ctl.reset
    end;
  is_async := fun a =>
    match a with
    | Feedback.submit _ _ _ => true
    | Feedback.reset => false
    end;
  returned := fun state _ => state;
|}.

(** [usePoll], lines 593-627.  The query is [hasVoted()]. *)
Definition usePoll : HookSpec core := {|
  Options := Poll.UsePollOptions;
  State := Poll.PollState (PollWithResults core);
  Return := Poll.UsePollReturn (PollWithResults core);
  Action := Poll.Action;
  Method := Poll.Ctl.Method;
  Answer := bool;
  initialState := fun _ =>
    {| Poll.poll := None; Poll.status := Status.idle; Poll.error := None |};
  config_of := fun options => Poll.base options;
  ctor_args := fun options => [Poll.slug options];
  deps := fun options =>
    [siteKey (Poll.base options); endpoint (Poll.base options);
     Some (Poll.slug options)];
  autoTrigger := fun options =>
    if not_false (Poll.autoFetch options) then Some Poll.Ctl.fetch else None;
  forward := fun a =>
    match a with
    | Poll.vote selectedOptions => Poll.Ctl.vote selectedOptions
    | Poll.refresh => Poll.Ctl.fetch
    end;
  is_async := fun _ => true;
  returned := fun state q =>
    {| Poll.spread := state; Poll.hasVoted := default false q |};
|}.

(** [useAnnouncements], lines 665-701.  The query is
    [getVisibleAnnouncements()]. *)
Definition useAnnouncements : HookSpec core := {|
  Options := Announcements.UseAnnouncementsOptions;
  State := Announcements.St.AnnouncementsState (Announcement core);
  Return := Announcements.UseAnnouncementsReturn (Announcement core);
  Action := Announcements.Action;
  Method := Announcements.Ctl.Method;
  Answer := list (Announcement core);
  initialState := fun _ =>
    {| Announcements.St.announcements := [];
       Announcements.St.dismissed := ∅;
       Announcements.St.status := Status.idle;
       Announcements.St.error := None |};
  config_of := fun options => Announcements.base options;
  ctor_args := fun _ => [];
  deps := fun options =>
    [siteKey (Announcements.base options); endpoint (Announcements.base options)];
  autoTrigger := fun options =>
    if not_false (Announcements.autoFetch options)
    then Some Announcements.Ctl.fetch else None;
  forward := fun a =>
    match a with
    | Announcements.dismiss announcementId =>
        Announcements.Ctl.dismiss announcementId
    | Announcements.refresh => Announcements.Ctl.fetch
    end;
  is_async := fun _ => true;
  returned := fun state q =>
    {| Announcements.announcements := default [] q;
       Announcements.status := Announcements.St.status state;
       Announcements.error := Announcements.St.error state |};
|}.

(** The hook of each feature. *)
Definition hook (f : Feature.t) : HookSpec core :=
  match f with
  | Feature.subscribe => useSubscribe
  | Feature.form => useForm
  | Feature.reactions => useReactions
  | Feature.comments => useComments
  | Feature.waitlist => useWaitlist
  | Feature.views => useViews
  | Feature.feedback => useFeedback
  | Feature.poll => usePoll
  | Feature.announcements => useAnnouncements
  end.

End Hooks.

Arguments hook : clear implicits.

(** ** Reading a trace *)

Section Traces.
Context {core : Core} (H : HookSpec core).

(** The controllers constructed, in order. *)
Definition constructed (tr : list (Event H)) : list nat :=
  omap (fun e => match e with Constructed _ c _ _ => Some c | _ => None end) tr.

(** The calls the effect itself made on controller [c]. *)
Definition auto_called (c : nat) (tr : list (Event H)) : list (Method H) :=
  omap (fun e =>
          match e with
          | Called _ ByEffect c' m => if bool_decide (c' = c) then Some m else None
          | _ => None
          end) tr.

(** The controller whose listener is registered, if any. *)
Definition alive (b : Bridge H) : option nat :=
  match phase H b with
  | Mounted _ c => Some c
  | _ => None
  end.

(** The options of the last render of a life. *)
Definition last_options (o : Options H) (inputs : list (Input H)) : Options H :=
  fold_left (fun p i => match i with Render _ o' => o' | _ => p end) inputs o.

Definition is_emit (i : Input H) : bool :=
  match i with
  | Emit _ _ _ => true
  | _ => false
  end.

(** One step of [ref_after]. *)
Definition ref_step (r : option nat) (e : Event H) : option nat :=
  match e with RefAssigned _ c => Some c | _ => r end.

(** The value of [controllerRef.current] after the events of [tr]. *)
Definition ref_after (tr : list (Event H)) : option nat :=
  fold_left ref_step tr None.

(** Every deregistration in [tr] happens while the reference, [r] at
    the start of [tr], holds the controller deregistered. *)
Fixpoint disciplined (r : option nat) (tr : list (Event H)) : Prop :=
  match tr with
  | [] => True
  | Unsubscribed _ c _ :: tr' => r = Some c /\ disciplined r tr'
  | RefAssigned _ c :: tr' => disciplined (Some c) tr'
  | _ :: tr' => disciplined r tr'
  end.

(** The events of one run of the effect that constructs controller [c]. *)
Definition effect_events (o : Options H) (c : nat) : list (Event H) :=
  [Constructed H c (resolveConfig core (config_of H o)) (ctor_args H o);
   RefAssigned H c; Subscribed H c setState] ++
  match autoTrigger H o with
  | Some m => [Called H ByEffect c m]
  | None => []
  end.

(** The calls an effect run with options [o] makes on its controller. *)
Definition expected_auto (o : Options H) : list (Method H) :=
  match autoTrigger H o with
  | Some m => [m]
  | None => []
  end.

(** The trace of a life and the bridge it leads to tell the same story. *)
Definition agrees (b : Bridge H) (tr : list (Event H)) : Prop :=
  ref_after tr = controllerRef H b /\
  constructed tr = seq 0 (length (heap H b)) /\
  (forall c l, In (Unsubscribed H c l) tr ->
     c < length (heap H b) /\ alive b <> Some c) /\
  (forall c k, heap H b !! c = Some k ->
     auto_called c tr = expected_auto (made_with H k)) /\
  (forall c, length (heap H b) <= c -> auto_called c tr = []) /\
  disciplined None tr /\
  (forall c l, In (Subscribed H c l) tr ->
     alive b = Some c \/ In (Unsubscribed H c l) tr).

(** The listener registries agree with the phase: the bridge's listener
    is registered on the controller of the committed effect and on no
    other, and that controller is the one the reference holds. *)
Definition wf (b : Bridge H) : Prop :=
  (forall c k, heap H b !! c = Some k ->
     listeners H k = if bool_decide (alive b = Some c) then [setState] else []) /\
  (forall c, alive b = Some c -> controllerRef H b = Some c /\ c < length (heap H b)) /\
  (phase H b = Initial -> controllerRef H b = None /\ heap H b = []).

End Traces.

(** ** What the claims say about each hook *)

(** The configuration tuple of the specification: the site key, the
    endpoint, and the identifier of the feature where it has one. *)
Record Tuple := {
  site_key : option string;
  end_point : option string;
  identifier : option string;
}.

#[global] Instance Tuple_eq_dec : EqDecision Tuple :=
  fun x y =>
    match x, y return Decision (x = y) with
    | Build_Tuple a b c, Build_Tuple a' b' c' =>
        match decide ((a, b, c) = (a', b', c')) with
        | left E => left (f_equal (fun t => Build_Tuple t.1.1 t.1.2 t.2) E)
        | right n =>
            right (fun E : Build_Tuple a b c = Build_Tuple a' b' c' =>
                     n (f_equal (fun t => (site_key t, end_point t, identifier t)) E))
        end
    end.

Section Statements.
Context (core : Core).

(** The tuple of each hook's options: [siteKey], [endpoint], and
    [formSlug], [contentId], [pageId] or [slug]; [useSubscribe],
    [useWaitlist], [useFeedback] and [useAnnouncements] have no
    identifier.  [autoFetch] and [autoRecord] are no part of it. *)
Definition configuration (f : Feature.t) : Options (hook core f) -> Tuple :=
  match f with
  | Feature.subscribe => fun o =>
      {| site_key := siteKey o; end_point := endpoint o; identifier := None |}
  | Feature.form => fun o =>
      {| site_key := siteKey (Form.base o); end_point := endpoint (Form.base o);
         identifier := Some (Form.formSlug o) |}
  | Feature.reactions => fun o =>
      {| site_key := siteKey (Reactions.base o);
         end_point := endpoint (Reactions.base o);
         identifier := Some (Reactions.contentId o) |}
  | Feature.comments => fun o =>
      {| site_key := siteKey (Comments.base o);
         end_point := endpoint (Comments.base o);
         identifier := Some (Comments.contentId o) |}
  | Feature.waitlist => fun o =>
      {| site_key := siteKey o; end_point := endpoint o; identifier := None |}
  | Feature.views => fun o =>
      {| site_key := siteKey (Views.base o); end_point := endpoint (Views.base o);
         identifier := Some (Views.pageId o) |}
  | Feature.feedback => fun o =>
      {| site_key := siteKey o; end_point := endpoint o; identifier := None |}
  | Feature.poll => fun o =>
      {| site_key := siteKey (Poll.base o); end_point := endpoint (Poll.base o);
         identifier := Some (Poll.slug o) |}
  | Feature.announcements => fun o =>
      {| site_key := siteKey (Announcements.base o);
         end_point := endpoint (Announcements.base o);
         identifier := None |}
  end.

(** What a controller is constructed with for a tuple: the resolved
    configuration of its site key and endpoint, and its identifier. *)
Definition resolved (t : Tuple) : Config core :=
  resolveConfig core {| siteKey := site_key t; endpoint := end_point t |}.

Definition identifiers (t : Tuple) : list string := option_list (identifier t).

(** The number of renders, up to the unmount, whose tuple differs from
    that of the render before; [p] holds the options of the render
    before. *)
Fixpoint tuple_changes (f : Feature.t) (p : Options (hook core f))
  (inputs : list (Input (hook core f))) : nat :=
  match inputs with
  | [] => 0
  | Render _ o' :: rest =>
      (if bool_decide (configuration f o' = configuration f p) then 0 else 1)
      + tuple_changes f o' rest
  | Unmount _ :: _ => 0
  | _ :: rest => tuple_changes f p rest
  end.

(** Every field of the snapshot [s] that the hook returns from its
    state has, in the returned data [r], the value it has in [s]. *)
Definition mirrors (f : Feature.t)
  : State (hook core f) -> Return (hook core f) -> Prop :=
  match f with
  | Feature.subscribe => fun s r =>
      Subscribe.status r = Subscribe.status s /\
      Subscribe.message r = Subscribe.message s /\
      Subscribe.error r = Subscribe.error s
  | Feature.form => fun s r =>
      Form.status r = Form.status s /\
      Form.message r = Form.message s /\
      Form.error r = Form.error s
  | Feature.reactions => fun s r =>
      Reactions.counts r = Reactions.counts s /\
      Reactions.userReactions r = Reactions.userReactions s /\
      Reactions.status r = Reactions.status s /\
      Reactions.error r = Reactions.error s
  | Feature.comments => fun s r =>
      Comments.comments r = Comments.comments s /\
      Comments.status r = Comments.status s /\
      Comments.error r = Comments.error s
  | Feature.waitlist => fun s r =>
      Waitlist.status r = Waitlist.status s /\
      Waitlist.message r = Waitlist.message s /\
      Waitlist.position r = Waitlist.position s /\
      Waitlist.error r = Waitlist.error s
  | Feature.views => fun s r =>
      Views.views r = Views.St.views s /\
      Views.uniqueVisitors r = Views.St.uniqueVisitors s /\
      Views.status r = Views.St.status s /\
      Views.error r = Views.St.error s
  | Feature.feedback => fun s r =>
      Feedback.status r = Feedback.status s /\
      Feedback.message r = Feedback.message s /\
      Feedback.error r = Feedback.error s
  | Feature.poll => fun s r =>
      Poll.poll (Poll.spread r) = Poll.poll s /\
      Poll.status (Poll.spread r) = Poll.status s /\
      Poll.error (Poll.spread r) = Poll.error s
  | Feature.announcements => fun s r =>
      Announcements.status r = Announcements.St.status s /\
      Announcements.error r = Announcements.St.error s
  end.

(** What the hook returns of the snapshot [s] when the query of the
    controller answers [q]: the snapshot itself for the hooks that
    spread the state ([usePoll] beside [hasVoted]); [views],
    [uniqueVisitors], [status] and [error] for [useViews]; [status] and
    [error] for [useAnnouncements], whose [announcements] is the answer
    of the query. *)
Definition reflects (f : Feature.t)
  : State (hook core f) -> Answer (hook core f) -> Return (hook core f) -> Prop :=
  match f with
  | Feature.subscribe => fun s _ r => r = s
  | Feature.form => fun s _ r => r = s
  | Feature.reactions => fun s _ r => r = s
  | Feature.comments => fun s _ r => r = s
  | Feature.waitlist => fun s _ r => r = s
  | Feature.views => fun s _ r =>
      r = {| Views.views := Views.St.views s;
             Views.uniqueVisitors := Views.St.uniqueVisitors s;
             Views.status := Views.St.status s;
             Views.error := Views.St.error s |}
  | Feature.feedback => fun s _ r => r = s
  | Feature.poll => fun s _ r => Poll.spread r = s
  | Feature.announcements => fun s q r =>
      Announcements.status r = Announcements.St.status s /\
      Announcements.error r = Announcements.St.error s /\
      Announcements.announcements r = q
  end.

(** The reflection of a snapshot read by the names of the fields: every
    data field of the returned value that bears the name of a field of
    the snapshot has the value of that field. *)
Definition verbatim (f : Feature.t)
  : State (hook core f) -> Return (hook core f) -> Prop :=
  match f with
  | Feature.subscribe => mirrors Feature.subscribe
  | Feature.form => mirrors Feature.form
  | Feature.reactions => mirrors Feature.reactions
  | Feature.comments => mirrors Feature.comments
  | Feature.waitlist => mirrors Feature.waitlist
  | Feature.views => mirrors Feature.views
  | Feature.feedback => mirrors Feature.feedback
  | Feature.poll => mirrors Feature.poll
  | Feature.announcements => fun s r =>
      Announcements.announcements r = Announcements.St.announcements s /\
      Announcements.status r = Announcements.St.status s /\
      Announcements.error r = Announcements.St.error s
  end.

(** Every snapshot emitted by a controller whose listener is registered
    is reflected that way by the next call of the hook. *)
Definition reflected_verbatim (f : Feature.t) : Prop :=
  forall born o inputs c s,
    let H := hook core f in
    let b := fst (life H born o inputs) in
    let tr := snd (life H born o inputs) in
    In (Subscribed H c setState) tr ->
    ~ In (Unsubscribed H c setState) tr ->
    verbatim f s (call_hook H (fst (step H born (Emit H c s) b))).

(** Over a whole life, each controller is constructed once, and the
    effects call [read] on it exactly once when [flag] was absent or true
    in the options it was constructed with, and never when it was false. *)
Definition triggers_once (H : HookSpec core)
  (flag : Options H -> option bool) (read : Method H) : Prop :=
  forall born o inputs,
    let b := fst (life H born o inputs) in
    let tr := snd (life H born o inputs) in
    constructed H tr = seq 0 (length (heap H b)) /\
    forall c k, heap H b !! c = Some k ->
      auto_called H c tr =
        match flag (made_with H k) with
        | None => [read]
        | Some true => [read]
        | Some false => []
        end.

(** At any moment of a life there is a controller in the reference, and
    the returned function [a] makes exactly one call on it, of [m], and
    returns the promise of awaiting what that call returns. *)
Definition forwards_to (H : HookSpec core) (a : Action H) (m : Method H) : Prop :=
  forall born o inputs now reply,
    let b := fst (life H born o inputs) in
    exists c, controllerRef H b = Some c /\
      invoke H a now reply b =
        ([Called H ByAction c m], async_await now (Some reply)).

(** The promise of an [async] returned function is fulfilled only
    strictly after the promise the controller returned was (or when the
    controller returned no promise at all). *)
Definition settles_after (H : HookSpec core) : Prop :=
  forall (a : Action H) now reply t,
    is_async H a = true ->
    finish H a now (Some reply) = Returns (Some (Some (t, Fulfilled))) ->
    reply = Returns None \/
    exists t0, reply = Returns (Some (Some (t0, Fulfilled))) /\ t0 < t.

(** Whenever the hook is called while controller [c] is alive, the
    derived value it returns is what [c] answers at that moment. *)
Definition reads_alive (H : HookSpec core) (derived : Return H -> Answer H) : Prop :=
  forall born o inputs d c o',
    let b := fst (life H born o inputs) in
    phase H b = Mounted d c ->
    controllerRef H b = Some c /\
    exists k, heap H b !! c = Some k /\
      derived <$> rendered H (fst (step H born (Render H o') b)) = Some (answer H k).

(** Whatever the alive controller has just come to answer, the next call
    of the hook returns it. *)
Definition never_cached (H : HookSpec core) (derived : Return H -> Answer H) : Prop :=
  forall born o inputs d c a o',
    let b := fst (life H born o inputs) in
    phase H b = Mounted d c ->
    derived <$> rendered H (fst (run H born [Internal H c a; Render H o'] b)) = Some a.

(** The derived value as a live view of the controller: at every moment
    of a life, and be it only at those at which React has no render
    queued, the value the consumer holds (the one the last call of the
    hook returned) is what the alive controller answers then. *)
Definition always_current (H : HookSpec core) (derived : Return H -> Answer H) : Prop :=
  forall born o inputs c k r,
    let b := fst (life H born o inputs) in
    pending H b = false ->
    alive H b = Some c ->
    heap H b !! c = Some k ->
    rendered H b = Some r ->
    derived r = answer H k.

End Statements.

(** ** A concrete core, for running the model *)

Definition sampleCore : Core := {|
  Config := string * string;
  resolveConfig := fun o =>
    (default "site-key-from-meta" (siteKey o),
     default "https://api.seriph.xyz" (endpoint o));
  Comment := string;
  Announcement := Z;
  PollWithResults := string;
  FeedbackType := string;
  unknown := string;
|}.

Definition sampleOptions : OptionalSiteKey :=
  {| siteKey := Some "your-site-key"; endpoint := None |}.

Definition pollOptions (slug : string) (autoFetch : option bool) : Poll.UsePollOptions :=
  {| Poll.base := sampleOptions; Poll.slug := slug; Poll.autoFetch := autoFetch |}.

Definition announcementsOptions (autoFetch : option bool)
  : Announcements.UseAnnouncementsOptions :=
  {| Announcements.base := sampleOptions; Announcements.autoFetch := autoFetch |}.

(** A fresh poll controller has no vote, a fresh announcements controller
    nothing to show. *)
Definition bornPoll : Config sampleCore -> list string -> bool := fun _ _ => false.
Definition bornAnnouncements : Config sampleCore -> list string -> list Z :=
  fun _ _ => [].
Definition bornUnit : Config sampleCore -> list string -> unit := fun _ _ => tt.

(** A poll controller that knows of the visitor's vote as soon as it is
    constructed. *)
Definition bornVoted : Config sampleCore -> list string -> bool := fun _ _ => true.

(** A life of [usePoll]: mounted on poll "a" with [autoFetch] absent;
    the consumer votes; the controller records the vote and notifies;
    React renders again; then the slug changes to "b" with [autoFetch]
    false. *)
Definition pollHook : HookSpec sampleCore := hook sampleCore Feature.poll.

Definition votedSnapshot : State pollHook :=
  {| Poll.poll := Some "favorite-framework"; Poll.status := Status.success;
     Poll.error := None |}.

Definition pollLife : list (Input pollHook) :=
  [Invoke pollHook (Poll.vote ["x"]) 0 (Returns (Some (Some (3, Fulfilled))));
   Internal pollHook 0 true;
   Emit pollHook 0 votedSnapshot;
   Render pollHook (pollOptions "a" None);
   Render pollHook (pollOptions "b" (Some false))].

(** The same component right after its mount. *)
Definition pollMounted : Bridge pollHook :=
  fst (life pollHook bornPoll (pollOptions "a" None) []).

Definition announcementsHook : HookSpec sampleCore :=
  hook sampleCore Feature.announcements.

(** A life of [useAnnouncements]: mounted with the default endpoint; the
    controller fetches one announcement and notifies; React renders
    again; then the endpoint changes, with [autoFetch] false. *)
Definition visibleSnapshot : State announcementsHook :=
  {| Announcements.St.announcements := [7%Z]; Announcements.St.dismissed := ∅;
     Announcements.St.status := Status.success; Announcements.St.error := None |}.

Definition announcementsElsewhere : Announcements.UseAnnouncementsOptions :=
  {| Announcements.base :=
       {| siteKey := Some "your-site-key"; endpoint := Some "https://eu.seriph.xyz" |};
     Announcements.autoFetch := Some false |}.

Definition announcementsLife : list (Input announcementsHook) :=
  [Internal announcementsHook 0 [7%Z];
   Emit announcementsHook 0 visibleSnapshot;
   Render announcementsHook (announcementsOptions None);
   Render announcementsHook announcementsElsewhere].

(** The announcements controller after a fetch of two announcements of
    which the visitor has dismissed the second: the snapshot it emits
    lists both, [getVisibleAnnouncements()] answers the first only. *)
Definition dismissedSnapshot : State announcementsHook :=
  {| Announcements.St.announcements := [7%Z; 8%Z];
     Announcements.St.dismissed := {[ 8%Z ]};
     Announcements.St.status := Status.success; Announcements.St.error := None |}.

Definition announcementsFetched : list (Input announcementsHook) :=
  [Internal announcementsHook 0 [7%Z]].

(** A life of [usePoll] through three controllers, constructed with
    [autoFetch] absent, false and true. *)
Definition pollFlags : list (Input pollHook) :=
  [Render pollHook (pollOptions "b" (Some false));
   Render pollHook (pollOptions "c" (Some true))].

Definition formHook : HookSpec sampleCore := hook sampleCore Feature.form.

Definition formOptions (slug : string) : Form.UseFormOptions :=
  {| Form.base := sampleOptions; Form.formSlug := slug |}.

(** ** Further readings of a life *)

Section Readings.
Context {core : Core} (H : HookSpec core).

(** The controllers on which the bridge called [subscribe], and those
    whose deregistration function it called, in order. *)
Definition subscribed (tr : list (Event H)) : list nat :=
  omap (fun e => match e with Subscribed _ c _ => Some c | _ => None end) tr.

Definition unsubscribed (tr : list (Event H)) : list nat :=
  omap (fun e => match e with Unsubscribed _ c _ => Some c | _ => None end) tr.

(** The controller on which the listener is registered after the events
    of a trace, as the calls of [subscribe] and of the functions it
    returned leave it. *)
Definition reg_step (r : option nat) (e : Event H) : option nat :=
  match e with
  | Subscribed _ c _ => Some c
  | Unsubscribed _ c _ => if bool_decide (r = Some c) then None else r
  | _ => r
  end.

Definition registered_after (tr : list (Event H)) : option nat :=
  fold_left reg_step tr None.

(** Every call made by an effect in [tr] is made on the controller on
    which the listener is registered at that point, [r] at the start. *)
Fixpoint reads_heard (r : option nat) (tr : list (Event H)) : Prop :=
  match tr with
  | [] => True
  | Called _ ByEffect c _ :: tr' => r = Some c /\ reads_heard r tr'
  | e :: tr' => reads_heard (reg_step r e) tr'
  end.

(** The number of renders, up to the unmount, whose dependency array
    differs from that of the render before; [p] holds the options of
    the render before. *)
Fixpoint reconfigurations (p : Options H) (inputs : list (Input H)) : nat :=
  match inputs with
  | [] => 0
  | Render _ o' :: rest =>
      (if bool_decide (deps H o' = deps H p) then 0 else 1) + reconfigurations o' rest
  | Unmount _ :: _ => 0
  | _ :: rest => reconfigurations p rest
  end.

(** The alive controller, if there is one, was constructed with the
    arguments the effect computes from options of dependency array [d]. *)
Definition alive_made_for (b : Bridge H) : Prop :=
  forall d c, phase H b = Mounted d c ->
    exists k, heap H b !! c = Some k /\
      deps H (made_with H k) = d /\
      config H k = resolveConfig core (config_of H (made_with H k)) /\
      args H k = ctor_args H (made_with H k).

End Readings.

(** At any moment of a life the plain returned function [a] makes
    exactly one call, of [m], on the controller in the reference; it
    returns [undefined] when that call returns and throws what it throws. *)
Definition resets_through (core : Core) (H : HookSpec core)
  (a : Action H) (m : Method H) : Prop :=
  forall born o inputs now reply,
    let b := fst (life H born o inputs) in
    exists c, controllerRef H b = Some c /\
      invoke H a now reply b =
        ([Called H ByAction c m],
         match reply with Throws e => Throws e | Returns _ => Returns None end).

(** A life of [useSubscribe] that ends with the unmount. *)
Definition subscribeHook : HookSpec sampleCore := hook sampleCore Feature.subscribe.

Definition subscribeLife : list (Input subscribeHook) :=
  [Emit subscribeHook 0
     {| Subscribe.status := Status.loading; Subscribe.message := None;
        Subscribe.error := None |};
   Render subscribeHook sampleOptions;
   Unmount subscribeHook].

(** * Laws of the runtime, for any hook *)

(** ** Laws that do not depend on what controllers answer *)

Section TraceLaws.
Context {core : Core} (H : HookSpec core).

(** *** Dependency arrays *)

(** For arrays of one length, React's comparison is equality. *)
Lemma areHookInputsEqual_eq (x y : list (option string)) :
  length x = length y -> areHookInputsEqual x y = true <-> x = y.
Proof.
  revert y. induction x as [|a x IH]; intros [|b y] Hlen; simpl in *; try discriminate.
  - split; reflexivity.
  - unfold Object_is. rewrite andb_true_iff, bool_decide_eq_true, IH by lia.
    split; [intros [-> ->]; reflexivity | intros [= -> ->]; auto].
Qed.

(** *** Reading a trace piece by piece *)

Lemma disciplined_app r tr ev :
  disciplined H r (tr ++ ev) <->
  disciplined H r tr /\ disciplined H (fold_left (ref_step H) tr r) ev.
Proof.
  revert r. induction tr as [|e tr IH]; intros r; simpl; [tauto|].
  destruct e; simpl; rewrite IH; tauto.
Qed.

Lemma disciplined_prefix r pre c l post :
  disciplined H r (pre ++ Unsubscribed H c l :: post) ->
  fold_left (ref_step H) pre r = Some c.
Proof.
  intros Hd. destruct (proj1 (disciplined_app r pre _) Hd) as [_ Hd'].
  simpl in Hd'. apply Hd'.
Qed.

Lemma disciplined_effect r o c : disciplined H r (effect_events H o c).
Proof. unfold effect_events. simpl. destruct (autoTrigger H o); simpl; exact I. Qed.

Lemma ref_effect r o c : fold_left (ref_step H) (effect_events H o c) r = Some c.
Proof. unfold effect_events. simpl. destruct (autoTrigger H o); reflexivity. Qed.

Lemma constructed_app tr ev :
  constructed H (tr ++ ev) = constructed H tr ++ constructed H ev.
Proof. apply omap_app. Qed.

Lemma constructed_effect o c : constructed H (effect_events H o c) = [c].
Proof. unfold effect_events. simpl. destruct (autoTrigger H o); reflexivity. Qed.

Lemma auto_called_app c tr ev :
  auto_called H c (tr ++ ev) = auto_called H c tr ++ auto_called H c ev.
Proof. apply omap_app. Qed.

Lemma auto_called_effect c' o c :
  auto_called H c' (effect_events H o c) =
  if bool_decide (c = c') then expected_auto H o else [].
Proof.
  unfold effect_events, expected_auto. simpl.
  destruct (autoTrigger H o); simpl; destruct (bool_decide (c = c')); reflexivity.
Qed.

Lemma In_unsubscribed_effect c l o c' : ~ In (Unsubscribed H c l) (effect_events H o c').
Proof.
  unfold effect_events. simpl. destruct (autoTrigger H o); simpl; intuition discriminate.
Qed.

Lemma In_subscribed_effect c l o c' :
  In (Subscribed H c l) (effect_events H o c') -> c = c'.
Proof.
  unfold effect_events. simpl. destruct (autoTrigger H o); simpl;
    intros [E|[E|[E|E]]]; try discriminate; try contradiction;
    try (inversion E; reflexivity); destruct E as [E|[]]; discriminate.
Qed.

(** *** Deregistration touches one registry and nothing else *)

Lemma unsubscribe_bridge c k b :
  heap H b !! c = Some k ->
  unsubscribe H c setState b =
  set_heap H
    (<[c := set_listeners H (remove_listener setState (listeners H k)) k]> (heap H b)) b.
Proof. intros Hk. unfold unsubscribe. rewrite Hk. reflexivity. Qed.

Lemma length_heap_unsubscribe c l b :
  length (heap H (unsubscribe H c l b)) = length (heap H b).
Proof.
  unfold unsubscribe. destruct (heap H b !! c); [|reflexivity].
  simpl. apply length_insert.
Qed.

Lemma lookup_heap_unsubscribe c l b i k' :
  heap H (unsubscribe H c l b) !! i = Some k' ->
  exists k, heap H b !! i = Some k /\
    made_with H k' = made_with H k /\ answer H k' = answer H k.
Proof.
  unfold unsubscribe. destruct (heap H b !! c) as [k|] eqn:Hk; [|eauto].
  simpl. destruct (decide (i = c)) as [->|Hne].
  - rewrite list_lookup_insert_eq by (eapply lookup_lt_Some; eassumption).
    intros [= <-]. eauto.
  - rewrite list_lookup_insert_ne by congruence. eauto.
Qed.

(** *** The registries agree with the phase *)

Lemma wf_create o : wf H (create H o).
Proof.
  repeat split; simpl; discriminate.
Qed.

Lemma wf_frame b b' :
  controllerRef H b' = controllerRef H b -> phase H b' = phase H b ->
  heap H b' = heap H b -> wf H b -> wf H b'.
Proof. unfold wf, alive. intros -> -> ->. tauto. Qed.

(** After the cleanup no controller has a listener. *)
Lemma cleanup_silences b d c :
  wf H b -> phase H b = Mounted d c ->
  forall c' k, heap H (fst (run_cleanup H b)) !! c' = Some k -> listeners H k = [].
Proof.
  intros (Hl & Ha & _) Hp c' k. unfold run_cleanup. rewrite Hp. simpl.
  destruct (Ha c) as [_ Hlt]; [unfold alive; rewrite Hp; reflexivity|].
  destruct (lookup_lt_is_Some_2 _ _ Hlt) as [k0 Hk0].
  rewrite (unsubscribe_bridge _ _ _ Hk0). simpl.
  pose proof (Hl _ _ Hk0) as Hk0l. unfold alive in Hk0l. rewrite Hp in Hk0l.
  rewrite bool_decide_eq_true_2 in Hk0l by reflexivity.
  destruct (decide (c' = c)) as [->|Hne].
  - rewrite list_lookup_insert_eq by assumption. intros [= <-]. simpl.
    rewrite Hk0l. reflexivity.
  - rewrite list_lookup_insert_ne by congruence. intros Hk.
    rewrite (Hl _ _ Hk). unfold alive. rewrite Hp.
    rewrite bool_decide_eq_false_2; [reflexivity|congruence].
Qed.

(** The two outcomes of an unmount. *)
Lemma unmount_mounted b d c :
  phase H b = Mounted d c ->
  unmount H b = (set_phase H Unmounted (unsubscribe H c setState b),
                 [Unsubscribed H c setState]).
Proof. intros Hp. unfold unmount, run_cleanup. rewrite Hp. reflexivity. Qed.

Lemma unmount_other b :
  (forall d c, phase H b <> Mounted d c) ->
  unmount H b = (set_phase H Unmounted b, []).
Proof.
  intros Hp. unfold unmount, run_cleanup.
  destruct (phase H b) as [|d c|]; [reflexivity| |reflexivity].
  destruct (Hp d c). reflexivity.
Qed.

Lemma wf_unmount b : wf H b -> wf H (fst (unmount H b)).
Proof.
  intros Hwf. unfold unmount.
  destruct (run_cleanup H b) as [b1 ev1] eqn:E1. simpl.
  apply (f_equal fst) in E1. simpl in E1. subst b1.
  assert (Hs : forall c k,
             heap H (fst (run_cleanup H b)) !! c = Some k -> listeners H k = []).
  { destruct (phase H b) as [|d c|] eqn:Hp.
    - unfold run_cleanup. rewrite Hp. simpl. destruct Hwf as (_ & _ & Hi).
      destruct (Hi Hp) as [_ ->]. intros c k Hk. rewrite lookup_nil in Hk. discriminate.
    - eapply cleanup_silences; eassumption.
    - unfold run_cleanup. rewrite Hp. simpl. destruct Hwf as (Hl & _).
      intros c k Hk. rewrite (Hl _ _ Hk). unfold alive. rewrite Hp.
      rewrite bool_decide_eq_false_2; [reflexivity|discriminate]. }
  unfold wf, alive. simpl. split; [|split]; try discriminate.
  intros c k Hk. eauto.
Qed.

(** A notification changes the mirrored state and nothing else. *)
Lemma emit_frame c s b : emit H c s b = b \/ emit H c s b = set_state H s b.
Proof.
  unfold emit. destruct (heap H b !! c) as [k|]; [|auto].
  induction (listeners H k) as [|l ls IH]; simpl; [auto|].
  destruct l. unfold notify at 1.
  destruct IH as [-> | ->]; simpl; destruct (phase H b); auto.
Qed.

Lemma wf_emit c s b : wf H b -> wf H (emit H c s b).
Proof. destruct (emit_frame c s b) as [-> | ->]; [auto|]. apply wf_frame; reflexivity. Qed.

Lemma wf_internal c a b : wf H b -> wf H (internal H c a b).
Proof.
  intros Hwf. unfold internal. destruct (heap H b !! c) as [k|] eqn:Hk; [|assumption].
  destruct Hwf as (Hl & Ha & Hi). unfold wf, alive in *. simpl.
  split; [|split].
  - intros c' k' Hk'. destruct (decide (c' = c)) as [->|Hne].
    + rewrite list_lookup_insert_eq in Hk' by (eapply lookup_lt_Some; eassumption).
      injection Hk' as <-. simpl. eauto.
    + rewrite list_lookup_insert_ne in Hk' by congruence. eauto.
  - intros c' Hc'. rewrite length_insert. auto.
  - intros Hp. destruct (Hi Hp) as [_ Hh]. rewrite Hh in Hk.
    rewrite lookup_nil in Hk. discriminate.
Qed.

(** The alive controller reaches the state; any other reaches nothing. *)
Lemma emit_alive c s b :
  wf H b -> alive H b = Some c -> emit H c s b = set_state H s b.
Proof.
  intros (Hl & Ha & _) Hal. destruct (Ha _ Hal) as [_ Hlt].
  destruct (lookup_lt_is_Some_2 _ _ Hlt) as [k Hk].
  unfold emit. rewrite Hk, (Hl _ _ Hk), bool_decide_eq_true_2 by assumption.
  simpl. unfold alive in Hal. destruct (phase H b); try discriminate. reflexivity.
Qed.

Lemma emit_silent c s b :
  wf H b -> alive H b <> Some c -> emit H c s b = b.
Proof.
  intros (Hl & _) Hal. unfold emit.
  destruct (heap H b !! c) as [k|] eqn:Hk; [|reflexivity].
  rewrite (Hl _ _ Hk), bool_decide_eq_false_2 by assumption. reflexivity.
Qed.

(** *** The trace agrees with the bridge *)

Lemma agrees_create o : agrees H (create H o) [].
Proof.
  unfold agrees, ref_after. simpl.
  split; [reflexivity|]. split; [reflexivity|]. split; [contradiction|].
  split; [|split; [reflexivity|split; [exact I|contradiction]]].
  intros c k Hk. rewrite lookup_nil in Hk. discriminate.
Qed.

Lemma agrees_frame b b' tr :
  controllerRef H b' = controllerRef H b -> phase H b' = phase H b ->
  length (heap H b') = length (heap H b) ->
  (forall i k', heap H b' !! i = Some k' ->
     exists k, heap H b !! i = Some k /\ made_with H k' = made_with H k) ->
  agrees H b tr -> agrees H b' tr.
Proof.
  intros Hr Hp Hlen Hh (A1 & A2 & A3 & A4 & A5 & A6 & A7).
  unfold agrees, ref_after, alive in *.
  rewrite Hr, Hp, Hlen.
  split; [assumption|]. split; [assumption|]. split; [assumption|].
  split; [|split; [assumption|split; assumption]].
  intros i k' Hk'. destruct (Hh _ _ Hk') as (k & Hk & ->). eauto.
Qed.

Lemma agrees_unmounted b tr :
  (forall d c, phase H b <> Mounted d c) ->
  agrees H b tr -> agrees H (set_phase H Unmounted b) tr.
Proof.
  intros Hnm (A1 & A2 & A3 & A4 & A5 & A6 & A7). unfold ref_after in A1.
  unfold agrees, ref_after, alive. simpl.
  split; [assumption|]. split; [assumption|].
  split; [|split; [assumption|split; [assumption|split; [assumption|]]]].
  - intros c l Hin. split; [apply (A3 _ _ Hin)|discriminate].
  - intros c l Hin. destruct (A7 _ _ Hin) as [Hc|Hu]; [|auto].
    unfold alive in Hc. destruct (phase H b) as [|d c0|] eqn:Hp; try discriminate.
    destruct (Hnm d c0). reflexivity.
Qed.

(** Running the cleanup of the committed effect. *)
Lemma agrees_cleanup b tr d c :
  wf H b -> phase H b = Mounted d c -> agrees H b tr ->
  agrees H (set_phase H Unmounted (unsubscribe H c setState b))
         (tr ++ [Unsubscribed H c setState]).
Proof.
  intros (_ & Ha & _) Hp (A1 & A2 & A3 & A4 & A5 & A6 & A7). unfold ref_after in A1.
  destruct (Ha c) as [Hr Hlt]; [unfold alive; rewrite Hp; reflexivity|].
  unfold agrees, ref_after. simpl. rewrite length_heap_unsubscribe.
  assert (Hrf : controllerRef H (unsubscribe H c setState b) = controllerRef H b).
  { unfold unsubscribe. destruct (heap H b !! c); reflexivity. }
  split; [|split; [|split; [|split; [|split; [|split]]]]].
  - rewrite fold_left_app. simpl. congruence.
  - rewrite constructed_app, A2. simpl. apply app_nil_r.
  - intros c' l Hin. unfold alive. simpl. split; [|discriminate].
    apply in_app_or in Hin as [Hin|[E|[]]]; [apply (A3 _ _ Hin)|].
    inversion E; subst; assumption.
  - intros c' k' Hk'. apply lookup_heap_unsubscribe in Hk' as (k & Hk & -> & _).
    rewrite auto_called_app. simpl. rewrite app_nil_r. eauto.
  - intros c' Hle. rewrite auto_called_app. simpl. rewrite app_nil_r. eauto.
  - apply disciplined_app. split; [assumption|]. simpl. rewrite A1. auto.
  - intros c' l Hin. right. apply in_or_app.
    apply in_app_or in Hin as [Hin|[E|[]]]; [|discriminate].
    destruct (A7 _ _ Hin) as [Hc|Hu]; [|auto].
    unfold alive in Hc. rewrite Hp in Hc. injection Hc as <-.
    destruct l. right. left. reflexivity.
Qed.

End TraceLaws.

(** ** Laws of the steps *)

Section Laws.
Context {core : Core} (H : HookSpec core).
Variable born : Config core -> list string -> Answer H.

(** *** The effect, in one piece *)

Lemma run_effect_bridge o b :
  fst (run_effect H born o b) =
  {| controllerRef := Some (length (heap H b)); state := state H b;
     phase := Mounted (deps H o) (length (heap H b)); rendered := rendered H b;
     pending := pending H b;
     heap := heap H b ++
       [{| config := resolveConfig core (config_of H o); args := ctor_args H o;
           made_with := o; listeners := [setState];
           answer := born (resolveConfig core (config_of H o)) (ctor_args H o) |}] |}.
Proof.
  unfold run_effect, subscribe. simpl.
  rewrite list_lookup_middle by reflexivity. simpl.
  rewrite insert_app_r_alt by lia. rewrite Nat.sub_diag. reflexivity.
Qed.

Lemma lookup_heap_effect o b i k' :
  heap H (fst (run_effect H born o b)) !! i = Some k' ->
  (i = length (heap H b) /\ made_with H k' = o) \/
  (i < length (heap H b) /\ heap H b !! i = Some k').
Proof.
  rewrite run_effect_bridge. simpl. intros Hk.
  apply lookup_app_Some in Hk as [Hk|[Hle Hk]].
  - right. split; [eapply lookup_lt_Some; eassumption|assumption].
  - left. destruct (i - length (heap H b)) as [|n] eqn:E.
    + simpl in Hk. injection Hk as <-. split; [lia|reflexivity].
    + simpl in Hk. rewrite lookup_nil in Hk. discriminate.
Qed.

Lemma length_heap_effect o b :
  length (heap H (fst (run_effect H born o b))) = S (length (heap H b)).
Proof. rewrite run_effect_bridge. simpl. rewrite length_app. simpl. lia. Qed.

(** The effect leaves one listener, on the controller it constructed. *)
Lemma wf_run_effect o b :
  (forall c k, heap H b !! c = Some k -> listeners H k = []) ->
  wf H (fst (run_effect H born o b)).
Proof.
  intros Hnone. rewrite run_effect_bridge. unfold wf, alive. simpl.
  split; [|split].
  - intros c k Hk.
    destruct (decide (c = length (heap H b))) as [->|Hne].
    + rewrite list_lookup_middle in Hk by reflexivity.
      injection Hk as <-. simpl. rewrite bool_decide_eq_true_2; reflexivity.
    + rewrite bool_decide_eq_false_2 by congruence.
      apply lookup_app_Some in Hk as [Hk|[Hle Hk]]; [eauto|].
      destruct (c - length (heap H b)) as [|n] eqn:E; [lia|].
      simpl in Hk. rewrite lookup_nil in Hk. discriminate.
  - intros c [= <-]. split; [reflexivity|]. rewrite length_app. simpl. lia.
  - discriminate.
Qed.

(** *** The outcome of a render, case by case *)

Lemma render_unmounted o b :
  phase H b = Unmounted -> render H born o b = (b, []).
Proof. intros Hp. unfold render. rewrite Hp. reflexivity. Qed.

Lemma render_initial o b :
  phase H b = Initial ->
  render H born o b =
  (fst (run_effect H born o (set_rendered H (call_hook H b) b)),
   effect_events H o (length (heap H b))).
Proof. intros Hp. unfold render, commit. simpl. rewrite Hp. reflexivity. Qed.

Lemma render_same o b d c :
  phase H b = Mounted d c -> areHookInputsEqual (deps H o) d = true ->
  render H born o b = (set_rendered H (call_hook H b) b, []).
Proof. intros Hp He. unfold render, commit. simpl. rewrite Hp, He. reflexivity. Qed.

Lemma render_changed o b d c :
  phase H b = Mounted d c -> areHookInputsEqual (deps H o) d = false ->
  render H born o b =
  (fst (run_effect H born o
          (unsubscribe H c setState (set_rendered H (call_hook H b) b))),
   Unsubscribed H c setState :: effect_events H o (length (heap H b))).
Proof.
  intros Hp He. unfold render, commit, run_cleanup. simpl. rewrite Hp, He. simpl.
  unfold effect_events. rewrite length_heap_unsubscribe. reflexivity.
Qed.

(** *** Every step keeps the registries in agreement with the phase *)

Lemma wf_render o b : wf H b -> wf H (fst (render H born o b)).
Proof.
  intros Hwf. unfold render, commit.
  destruct (phase H b) as [|d c|] eqn:Hp; simpl; rewrite ?Hp; [| |assumption].
  - apply wf_run_effect. simpl. destruct Hwf as (_ & _ & Hi).
    destruct (Hi Hp) as [_ ->]. intros c k Hk. rewrite lookup_nil in Hk. discriminate.
  - destruct (areHookInputsEqual (deps H o) d); [exact Hwf|].
    destruct (run_cleanup H (set_rendered H (call_hook H b) b)) as [b1 ev1] eqn:E1.
    destruct (run_effect H born o b1) as [b2 ev2] eqn:E2. simpl.
    apply (f_equal fst) in E1, E2. simpl in E1, E2. subst b1 b2.
    apply wf_run_effect. eapply cleanup_silences; [exact Hwf|exact Hp].
Qed.

Lemma wf_step i b : wf H b -> wf H (fst (step H born i b)).
Proof.
  destruct i; simpl; auto using wf_render, wf_unmount, wf_emit, wf_internal.
Qed.

Lemma run_cons i inputs b :
  run H born (i :: inputs) b =
  (fst (run H born inputs (fst (step H born i b))),
   snd (step H born i b) ++ snd (run H born inputs (fst (step H born i b)))).
Proof.
  simpl. destruct (step H born i b) as [b1 ev1]. simpl.
  destruct (run H born inputs b1) as [b2 ev2]. reflexivity.
Qed.

Lemma wf_run inputs b : wf H b -> wf H (fst (run H born inputs b)).
Proof.
  revert b. induction inputs as [|i inputs IH]; intros b Hwf; [exact Hwf|].
  rewrite run_cons. simpl. apply IH, wf_step, Hwf.
Qed.

Lemma wf_life o inputs : wf H (fst (life H born o inputs)).
Proof. apply wf_run, wf_create. Qed.

(** *** Every step keeps the trace in agreement with the bridge *)

Lemma agrees_effect o b tr :
  alive H b = None ->
  agrees H b tr ->
  agrees H (fst (run_effect H born o b)) (tr ++ effect_events H o (length (heap H b))).
Proof.
  intros Hal (A1 & A2 & A3 & A4 & A5 & A6 & A7). unfold ref_after in A1.
  unfold agrees, ref_after.
  rewrite length_heap_effect.
  split; [|split; [|split; [|split; [|split; [|split]]]]].
  - rewrite fold_left_app, ref_effect, run_effect_bridge. reflexivity.
  - rewrite constructed_app, constructed_effect, A2, seq_S. reflexivity.
  - intros c l Hin. apply in_app_or in Hin as [Hin|Hin].
    + destruct (A3 _ _ Hin) as [Hlt _]. split; [lia|].
      rewrite run_effect_bridge. unfold alive. simpl. intros [= E]. lia.
    + destruct (In_unsubscribed_effect _ _ _ _ _ Hin).
  - intros c k Hk. rewrite auto_called_app, auto_called_effect.
    apply lookup_heap_effect in Hk as [[-> Hm]|[Hlt Hk]].
    + rewrite A5 by lia. rewrite bool_decide_eq_true_2 by reflexivity.
      rewrite Hm. reflexivity.
    + rewrite (A4 _ _ Hk). rewrite bool_decide_eq_false_2 by lia.
      apply app_nil_r.
  - intros c Hle. rewrite auto_called_app, auto_called_effect.
    rewrite A5 by lia. rewrite bool_decide_eq_false_2 by lia. reflexivity.
  - apply disciplined_app. split; [assumption|apply disciplined_effect].
  - intros c l Hin. apply in_app_or in Hin as [Hin|Hin].
    + destruct (A7 _ _ Hin) as [Hc|Hu]; [congruence|].
      right. apply in_or_app. auto.
    + apply In_subscribed_effect in Hin as ->. left.
      rewrite run_effect_bridge. reflexivity.
Qed.

Lemma agrees_step i b tr :
  wf H b -> agrees H b tr ->
  agrees H (fst (step H born i b)) (tr ++ snd (step H born i b)).
Proof.
  intros Hwf Hag. destruct i as [o| |a now reply|c s|c a]; simpl.
  - destruct (phase H b) as [|d c|] eqn:Hp.
    + rewrite (render_initial _ _ Hp). cbn [fst snd].
      apply (agrees_effect o (set_rendered H (call_hook H b) b)); [|exact Hag].
      unfold alive. simpl. rewrite Hp. reflexivity.
    + destruct (areHookInputsEqual (deps H o) d) eqn:He.
      * rewrite (render_same _ _ _ _ Hp He). cbn [fst snd]. rewrite app_nil_r. exact Hag.
      * rewrite (render_changed _ _ _ _ Hp He). cbn [fst snd].
        pose proof (agrees_cleanup H (set_rendered H (call_hook H b) b) tr d c
                      Hwf Hp Hag) as Hc.
        apply (agrees_effect o) in Hc; [|reflexivity].
        rewrite <- app_assoc in Hc.
        replace (length (heap H (set_phase H Unmounted
                   (unsubscribe H c setState (set_rendered H (call_hook H b) b)))))
          with (length (heap H b)) in Hc
          by (symmetry; apply (length_heap_unsubscribe H c setState
                                 (set_rendered H (call_hook H b) b))).
        rewrite run_effect_bridge in Hc. rewrite run_effect_bridge. exact Hc.
    + rewrite (render_unmounted _ _ Hp). simpl. rewrite app_nil_r. exact Hag.
  - destruct (phase H b) as [|d c|] eqn:Hp.
    + rewrite unmount_other by (intros d c; rewrite Hp; discriminate). simpl.
      rewrite app_nil_r. apply agrees_unmounted; [|exact Hag].
      intros d c; rewrite Hp; discriminate.
    + rewrite (unmount_mounted H _ _ _ Hp). simpl. eapply agrees_cleanup; eassumption.
    + rewrite unmount_other by (intros d c; rewrite Hp; discriminate). simpl.
      rewrite app_nil_r. apply agrees_unmounted; [|exact Hag].
      intros d c; rewrite Hp; discriminate.
  - destruct Hag as (A1 & A2 & A3 & A4 & A5 & A6 & A7). unfold ref_after in A1.
    unfold invoke.
    destruct (controllerRef H b) as [c|] eqn:Hr; simpl;
      [|rewrite app_nil_r; unfold agrees; rewrite Hr; auto 10].
    unfold agrees, ref_after. rewrite Hr.
    split; [|split; [|split; [|split; [|split; [|split]]]]].
    + rewrite fold_left_app. simpl. assumption.
    + rewrite constructed_app. simpl. rewrite app_nil_r. assumption.
    + intros c' l Hin. apply in_app_or in Hin as [Hin|[E|[]]];
        [exact (A3 _ _ Hin)|discriminate].
    + intros c' k Hk. rewrite auto_called_app. simpl. rewrite app_nil_r. auto.
    + intros c' Hle. rewrite auto_called_app. simpl. rewrite app_nil_r. auto.
    + apply disciplined_app. split; [assumption|exact I].
    + intros c' l Hin. apply in_app_or in Hin as [Hin|[E|[]]]; [|discriminate].
      destruct (A7 _ _ Hin) as [Hc|Hu]; [auto|]. right. apply in_or_app. auto.
  - rewrite app_nil_r. destruct (emit_frame H c s b) as [-> | ->]; [assumption|].
    apply (agrees_frame H b); [reflexivity..| |exact Hag]. simpl. eauto.
  - rewrite app_nil_r. unfold internal.
    destruct (heap H b !! c) as [k|] eqn:Hk; [|assumption].
    apply (agrees_frame H b);
      [reflexivity|reflexivity|simpl; apply length_insert| |exact Hag].
    simpl. intros i k' Hk'. destruct (decide (i = c)) as [->|Hne].
    + rewrite list_lookup_insert_eq in Hk' by (eapply lookup_lt_Some; eassumption).
      injection Hk' as <-. eauto.
    + rewrite list_lookup_insert_ne in Hk' by congruence. eauto.
Qed.

Lemma agrees_run inputs b tr :
  wf H b -> agrees H b tr ->
  agrees H (fst (run H born inputs b)) (tr ++ snd (run H born inputs b)).
Proof.
  revert b tr. induction inputs as [|i inputs IH]; intros b tr Hwf Hag.
  - simpl. rewrite app_nil_r. assumption.
  - rewrite run_cons. simpl. rewrite app_assoc.
    apply IH; [apply wf_step, Hwf|apply agrees_step; assumption].
Qed.

Lemma agrees_life o inputs :
  agrees H (fst (life H born o inputs)) (snd (life H born o inputs)).
Proof.
  apply (agrees_run (Render H o :: inputs) (create H o) []);
    [apply wf_create|apply agrees_create].
Qed.

(** *** What a render hands to the consumer *)

Lemma rendered_render o b :
  phase H b <> Unmounted ->
  rendered H (fst (render H born o b)) = Some (call_hook H b).
Proof.
  intros Hp. destruct (phase H b) as [|d c|] eqn:E; [| |congruence].
  - rewrite (render_initial _ _ E). cbn [fst]. rewrite run_effect_bridge. reflexivity.
  - destruct (areHookInputsEqual (deps H o) d) eqn:He.
    + rewrite (render_same _ _ _ _ E He). reflexivity.
    + rewrite (render_changed _ _ _ _ E He). cbn [fst]. rewrite run_effect_bridge.
      cbn [rendered]. unfold unsubscribe.
      destruct (heap H (set_rendered H (call_hook H b) b) !! c); reflexivity.
Qed.

(** Only a notification changes the mirrored state, and it changes it
    to the snapshot notified. *)
Lemma state_step i b :
  state H (fst (step H born i b)) = state H b \/
  exists c s, i = Emit H c s /\ state H (fst (step H born i b)) = s.
Proof.
  destruct i as [o| |a now reply|c s|c a]; simpl.
  - left. destruct (phase H b) as [|d c|] eqn:E.
    + rewrite (render_initial _ _ E). cbn [fst]. rewrite run_effect_bridge. reflexivity.
    + destruct (areHookInputsEqual (deps H o) d) eqn:He.
      * rewrite (render_same _ _ _ _ E He). reflexivity.
      * rewrite (render_changed _ _ _ _ E He). cbn [fst]. rewrite run_effect_bridge.
        cbn [state]. unfold unsubscribe.
        destruct (heap H (set_rendered H (call_hook H b) b) !! c); reflexivity.
    + rewrite (render_unmounted _ _ E). reflexivity.
  - left. unfold unmount, run_cleanup. destruct (phase H b) as [|d c|]; try reflexivity.
    simpl. unfold unsubscribe. destruct (heap H b !! c); reflexivity.
  - left. reflexivity.
  - destruct (emit_frame H c s b) as [-> | ->]; [left; reflexivity|].
    right. exists c, s. split; reflexivity.
  - left. unfold internal. destruct (heap H b !! c); reflexivity.
Qed.

Lemma state_run_quiet inputs b :
  forallb (fun i => negb (is_emit H i)) inputs = true ->
  state H (fst (run H born inputs b)) = state H b.
Proof.
  revert b. induction inputs as [|i inputs IH]; intros b Hq; [reflexivity|].
  simpl in Hq. apply andb_true_iff in Hq as [Hi Hq].
  rewrite run_cons. cbn [fst]. rewrite (IH _ Hq).
  destruct (state_step i b) as [E|(c & s & -> & _)]; [exact E|discriminate].
Qed.

(** *** The reference, once assigned, is never null again *)

Lemma ref_step_some i b :
  is_Some (controllerRef H b) -> is_Some (controllerRef H (fst (step H born i b))).
Proof.
  intros Hr. destruct i as [o| |a now reply|c0 s|c0 a]; simpl.
  - destruct (phase H b) as [|d0 c0|] eqn:E.
    + rewrite (render_initial _ _ E). cbn [fst]. rewrite run_effect_bridge. simpl. eauto.
    + destruct (areHookInputsEqual (deps H o) d0) eqn:He.
      * rewrite (render_same _ _ _ _ E He). exact Hr.
      * rewrite (render_changed _ _ _ _ E He). cbn [fst].
        rewrite run_effect_bridge. simpl. eauto.
    + rewrite (render_unmounted _ _ E). exact Hr.
  - unfold unmount, run_cleanup. destruct (phase H b) as [|d c|]; try exact Hr.
    simpl. unfold unsubscribe. destruct (heap H b !! c); exact Hr.
  - exact Hr.
  - destruct (emit_frame H c0 s b) as [-> | ->]; exact Hr.
  - unfold internal. destruct (heap H b !! c0); exact Hr.
Qed.

Lemma ref_run_some inputs b :
  is_Some (controllerRef H b) -> is_Some (controllerRef H (fst (run H born inputs b))).
Proof.
  revert b. induction inputs as [|i inputs IH]; intros b Hr; [exact Hr|].
  rewrite run_cons. cbn [fst]. apply IH, ref_step_some, Hr.
Qed.

Lemma ref_life o inputs : is_Some (controllerRef H (fst (life H born o inputs))).
Proof.
  unfold life. rewrite run_cons. cbn [fst]. apply ref_run_some.
  cbn [step]. rewrite (render_initial o (create H o)) by reflexivity.
  cbn [fst]. rewrite run_effect_bridge. simpl. eauto.
Qed.

(** What the consumer holds is the value of the last call of the hook:
    nothing but a render changes it. *)
Lemma rendered_kept i b :
  (forall o, i <> Render H o) ->
  rendered H (fst (step H born i b)) = rendered H b.
Proof.
  intros Hi. destruct i as [o| |a now reply|c s|c a]; simpl.
  - destruct (Hi o). reflexivity.
  - unfold unmount, run_cleanup. destruct (phase H b) as [|d c|]; try reflexivity.
    simpl. unfold unsubscribe. destruct (heap H b !! c); reflexivity.
  - reflexivity.
  - destruct (emit_frame H c s b) as [-> | ->]; reflexivity.
  - unfold internal. destruct (heap H b !! c); reflexivity.
Qed.

(** *** The committed dependency array is that of the last render *)

Hypothesis arity : forall o o', length (deps H o) = length (deps H o').

Lemma last_deps_step i b p :
  (forall d c, phase H b = Mounted d c -> d = deps H p) ->
  forall d c, phase H (fst (step H born i b)) = Mounted d c ->
  d = deps H (match i with Render _ o' => o' | _ => p end).
Proof.
  intros Hb d c. destruct i as [o| |a now reply|c0 s|c0 a]; simpl.
  - destruct (phase H b) as [|d0 c0|] eqn:E.
    + rewrite (render_initial _ _ E). cbn [fst]. rewrite run_effect_bridge.
      simpl. congruence.
    + destruct (areHookInputsEqual (deps H o) d0) eqn:He.
      * rewrite (render_same _ _ _ _ E He). simpl. rewrite E. intros [= <- <-].
        symmetry. apply areHookInputsEqual_eq; [|assumption].
        rewrite (Hb _ _ eq_refl). apply arity.
      * rewrite (render_changed _ _ _ _ E He). cbn [fst]. rewrite run_effect_bridge.
        simpl. congruence.
    + rewrite (render_unmounted _ _ E). simpl. congruence.
  - unfold unmount. destruct (run_cleanup H b). simpl. discriminate.
  - apply Hb.
  - destruct (emit_frame H c0 s b) as [-> | ->]; apply Hb.
  - unfold internal. destruct (heap H b !! c0); apply Hb.
Qed.

Lemma last_deps_run inputs b p :
  (forall d c, phase H b = Mounted d c -> d = deps H p) ->
  forall d c, phase H (fst (run H born inputs b)) = Mounted d c ->
  d = deps H (last_options H p inputs).
Proof.
  revert b p. induction inputs as [|i inputs IH]; intros b p Hb d c.
  - apply Hb.
  - rewrite run_cons. cbn [fst]. unfold last_options. simpl.
    apply (IH (fst (step H born i b))). apply last_deps_step, Hb.
Qed.

Lemma last_deps_life o inputs d c :
  phase H (fst (life H born o inputs)) = Mounted d c ->
  d = deps H (last_options H o inputs).
Proof.
  unfold life. intros Hp.
  apply (last_deps_run (Render H o :: inputs) (create H o) o) in Hp; [exact Hp|].
  simpl. discriminate.
Qed.

End Laws.

(** ** The returned functions *)

Lemma forwards_of (core : Core) (H : HookSpec core) (a : Action H) (m : Method H) :
  forward H a = m -> is_async H a = true -> forwards_to core H a m.
Proof.
  intros Hf Ha born o inputs now reply b. unfold b.
  destruct (ref_life H born o inputs) as [c Hc].
  exists c. split; [exact Hc|]. unfold invoke, finish. rewrite Hc, Hf, Ha. reflexivity.
Qed.

Lemma settles_after_any (core : Core) (H : HookSpec core) : settles_after core H.
Proof.
  intros a now reply t Ha. unfold finish. rewrite Ha. unfold async_await.
  destruct reply as [e|[[[t0 out]|]|]]; intros E; try discriminate;
    inversion E; subst.
  - right. exists t0. split; [reflexivity|lia].
  - left. reflexivity.
Qed.

(** ** The model at work *)

(** Mounting [useViews] constructs the controller with the page
    identifier, registers the listener and records the view. *)
Example useViews_mount :
  snd (life (useViews sampleCore) bornUnit
         {| Views.base := sampleOptions; Views.pageId := "/blog/my-post";
            Views.autoRecord := None |} [])
  = [Constructed (useViews sampleCore) 0
       ("your-site-key", "https://api.seriph.xyz") ["/blog/my-post"];
     RefAssigned (useViews sampleCore) 0;
     Subscribed (useViews sampleCore) 0 setState;
     Called (useViews sampleCore) ByEffect 0 Views.Ctl.record].
Proof. reflexivity. Qed.

(** Mounting [useSubscribe] calls nothing; [subscribe] then forwards the
    address to [submit], and [reset] to [reset]. *)
Example useSubscribe_actions :
  snd (life (useSubscribe sampleCore) bornUnit sampleOptions
         [Invoke (useSubscribe sampleCore) (Subscribe.subscribe "user@example.com") 0
            (Returns (Some None));
          Invoke (useSubscribe sampleCore) Subscribe.reset 1 (Returns None)])
  = [Constructed (useSubscribe sampleCore) 0
       ("your-site-key", "https://api.seriph.xyz") [];
     RefAssigned (useSubscribe sampleCore) 0;
     Subscribed (useSubscribe sampleCore) 0 setState;
     Called (useSubscribe sampleCore) ByAction 0 (Subscribe.Ctl.submit "user@example.com");
     Called (useSubscribe sampleCore) ByAction 0 Subscribe.Ctl.reset].
Proof. reflexivity. Qed.

(** The sample life of [usePoll], event by event. *)
Example usePoll_life :
  snd (life pollHook bornPoll (pollOptions "a" None) pollLife)
  = [Constructed pollHook 0 ("your-site-key", "https://api.seriph.xyz") ["a"];
     RefAssigned pollHook 0; Subscribed pollHook 0 setState;
     Called pollHook ByEffect 0 Poll.Ctl.fetch;
     Called pollHook ByAction 0 (Poll.Ctl.vote ["x"]);
     Unsubscribed pollHook 0 setState;
     Constructed pollHook 1 ("your-site-key", "https://api.seriph.xyz") ["b"];
     RefAssigned pollHook 1; Subscribed pollHook 1 setState].
Proof. reflexivity. Qed.

(** With [autoFetch: false] an announcements bridge subscribes and
    fetches nothing until [refresh] is called. *)
Example useAnnouncements_no_auto :
  snd (life announcementsHook bornAnnouncements (announcementsOptions (Some false))
         [Invoke announcementsHook Announcements.refresh 0 (Returns (Some None))])
  = [Constructed announcementsHook 0 ("your-site-key", "https://api.seriph.xyz") [];
     RefAssigned announcementsHook 0; Subscribed announcementsHook 0 setState;
     Called announcementsHook ByAction 0 Announcements.Ctl.fetch].
Proof. reflexivity. Qed.

(** * The claims *)

Lemma hook_arity (core : Core) (f : Feature.t) (o o' : Options (hook core f)) :
  length (deps (hook core f) o) = length (deps (hook core f) o').
Proof. destruct f; reflexivity. Qed.

Lemma mirrors_returned (core : Core) (f : Feature.t) s q :
  mirrors core f s (returned (hook core f) s q).
Proof. destruct f; simpl; auto. Qed.

Lemma reflects_returned (core : Core) (f : Feature.t) s q :
  reflects core f s q (returned (hook core f) s (Some q)).
Proof. destruct f; simpl; auto. Qed.

(** C1, as written, fails for [useAnnouncements]: the [announcements]
    field of the returned value is not the [announcements] field of the
    snapshot.  Take the mounted component and a controller that has
    fetched announcements 7 and 8, of which the visitor has dismissed 8.
    The snapshot it emits lists both; the hook returns what
    [getVisibleAnnouncements()] answers, which is 7 alone. *)
Lemma dismissed_announcement_not_mirrored :
  In (Subscribed announcementsHook 0 setState)
     (snd (life announcementsHook bornAnnouncements (announcementsOptions None)
             announcementsFetched)) /\
  ~ In (Unsubscribed announcementsHook 0 setState)
       (snd (life announcementsHook bornAnnouncements (announcementsOptions None)
               announcementsFetched)) /\
  Announcements.St.announcements dismissedSnapshot = [7%Z; 8%Z] /\
  call_hook announcementsHook
    (fst (step announcementsHook bornAnnouncements
            (Emit announcementsHook 0 dismissedSnapshot)
            (fst (life announcementsHook bornAnnouncements (announcementsOptions None)
                    announcementsFetched))))
    = {| Announcements.announcements := [7%Z];
         Announcements.status := Status.success;
         Announcements.error := None |} /\
  ~ reflected_verbatim sampleCore Feature.announcements.
Proof.
  assert (Hin : In (Subscribed announcementsHook 0 setState)
                  (snd (life announcementsHook bornAnnouncements
                          (announcementsOptions None) announcementsFetched)))
    by (simpl; auto).
  assert (Hout : ~ In (Unsubscribed announcementsHook 0 setState)
                     (snd (life announcementsHook bornAnnouncements
                             (announcementsOptions None) announcementsFetched)))
    by (simpl; intuition discriminate).
  split; [exact Hin|]. split; [exact Hout|].
  split; [reflexivity|]. split; [reflexivity|].
  intros Hc.
  destruct (Hc bornAnnouncements (announcementsOptions None) announcementsFetched
              0 dismissedSnapshot Hin Hout) as [E _].
  discriminate E.
Qed.

(** C1, amended.  For each of the nine hooks: take any life of the
    component and a controller [c] whose listener has been registered
    and not yet deregistered.  When [c] emits snapshot [s], the mirrored
    state becomes [s], and the next call of the hook returns every field
    it takes from the state with the value of [s]: the snapshot itself
    for the seven hooks that spread the state; [views],
    [uniqueVisitors], [status] and [error] for [useViews]; [status] and
    [error] for [useAnnouncements].  The [announcements] list that
    [useAnnouncements] returns is not the field of the snapshot but what
    [c], the controller in the reference, answers to
    [getVisibleAnnouncements()] at that call.  That value is what a
    render hands to the consumer. *)
Theorem snapshot_mirrored (core : Core) (f : Feature.t)
  (born : Config core -> list string -> Answer (hook core f))
  (o : Options (hook core f)) (inputs : list (Input (hook core f)))
  (c : nat) (s : State (hook core f)) :
  let H := hook core f in
  let b := fst (life H born o inputs) in
  let tr := snd (life H born o inputs) in
  In (Subscribed H c setState) tr ->
  ~ In (Unsubscribed H c setState) tr ->
  let b' := fst (step H born (Emit H c s) b) in
  state H b' = s /\
  (exists k, controllerRef H b' = Some c /\ heap H b' !! c = Some k /\
     reflects core f s (answer H k) (call_hook H b')) /\
  forall o', rendered H (fst (step H born (Render H o') b')) = Some (call_hook H b').
Proof.
  intros H b tr Hsub Hnot b'.
  pose proof (wf_life H born o inputs) as Hwf.
  destruct (agrees_life H born o inputs) as (_ & _ & _ & _ & _ & _ & A7).
  destruct (A7 _ _ Hsub) as [Hal|Hu]; [|contradiction].
  assert (Eb : b' = set_state H s b) by (apply emit_alive; assumption).
  destruct Hwf as (_ & Ha & _). destruct (Ha _ Hal) as [Hr Hlt].
  destruct (lookup_lt_is_Some_2 _ _ Hlt) as [k Hk]. fold b in Hr, Hk.
  rewrite Eb. split; [reflexivity|]. split.
  - exists k. split; [exact Hr|]. split; [exact Hk|].
    unfold call_hook, query. cbn [set_state controllerRef heap state].
    rewrite Hr, Hk. apply reflects_returned.
  - intros o'. apply rendered_render. simpl.
    unfold alive in Hal. fold b in Hal. destruct (phase H b); discriminate.
Qed.

Lemma snapshot_mirrored_witness :
  In (Subscribed announcementsHook 0 setState)
     (snd (life announcementsHook bornAnnouncements (announcementsOptions None)
             announcementsFetched)) /\
  ~ In (Unsubscribed announcementsHook 0 setState)
       (snd (life announcementsHook bornAnnouncements (announcementsOptions None)
               announcementsFetched)) /\
  state announcementsHook
    (fst (step announcementsHook bornAnnouncements
            (Emit announcementsHook 0 dismissedSnapshot)
            (fst (life announcementsHook bornAnnouncements (announcementsOptions None)
                    announcementsFetched))))
    = dismissedSnapshot /\
  exists k,
    heap announcementsHook
      (fst (step announcementsHook bornAnnouncements
              (Emit announcementsHook 0 dismissedSnapshot)
              (fst (life announcementsHook bornAnnouncements (announcementsOptions None)
                      announcementsFetched)))) !! 0 = Some k /\
    answer announcementsHook k = [7%Z] /\
    reflects sampleCore Feature.announcements dismissedSnapshot [7%Z]
      (call_hook announcementsHook
         (fst (step announcementsHook bornAnnouncements
                 (Emit announcementsHook 0 dismissedSnapshot)
                 (fst (life announcementsHook bornAnnouncements
                         (announcementsOptions None) announcementsFetched))))).
Proof.
  assert (Hin : In (Subscribed announcementsHook 0 setState)
                  (snd (life announcementsHook bornAnnouncements
                          (announcementsOptions None) announcementsFetched)))
    by (simpl; auto).
  assert (Hout : ~ In (Unsubscribed announcementsHook 0 setState)
                     (snd (life announcementsHook bornAnnouncements
                             (announcementsOptions None) announcementsFetched)))
    by (simpl; intuition discriminate).
  split; [exact Hin|]. split; [exact Hout|].
  destruct (snapshot_mirrored sampleCore Feature.announcements bornAnnouncements
              (announcementsOptions None) announcementsFetched 0 dismissedSnapshot
              Hin Hout) as (Hs & (k & _ & Hk & Hr) & _).
  split; [exact Hs|]. exists k. split; [exact Hk|].
  assert (Ek : answer announcementsHook k = [7%Z])
    by (injection Hk as <-; reflexivity).
  split; [exact Ek|]. rewrite <- Ek. exact Hr.
Defined.

(** C2.  For each hook: once the deregistration function of controller
    [c] has run (on unmount or on a configuration change), a snapshot
    emitted by [c] at any later moment changes nothing in the bridge,
    so neither the mirrored state nor anything a render returns. *)
Theorem stale_controller_ignored (core : Core) (f : Feature.t)
  (born : Config core -> list string -> Answer (hook core f))
  (o : Options (hook core f)) (inputs : list (Input (hook core f)))
  (c : nat) (l : Listener) (s : State (hook core f)) :
  let H := hook core f in
  let b := fst (life H born o inputs) in
  let tr := snd (life H born o inputs) in
  In (Unsubscribed H c l) tr ->
  fst (step H born (Emit H c s) b) = b.
Proof.
  intros H b tr Hin.
  destruct (agrees_life H born o inputs) as (_ & _ & A3 & _).
  apply emit_silent; [apply wf_life|]. apply (A3 _ _ Hin).
Qed.

Lemma stale_controller_ignored_witness :
  In (Unsubscribed pollHook 0 setState)
     (snd (life pollHook bornPoll (pollOptions "a" None) pollLife)) /\
  fst (step pollHook bornPoll (Emit pollHook 0 votedSnapshot)
         (fst (life pollHook bornPoll (pollOptions "a" None) pollLife)))
  = fst (life pollHook bornPoll (pollOptions "a" None) pollLife).
Proof.
  split; [vm_compute; auto 10|].
  apply (stale_controller_ignored sampleCore Feature.poll bornPoll
           (pollOptions "a" None) pollLife 0 setState votedSnapshot).
  vm_compute; auto 10.
Defined.

Lemma triggers_once_of (core : Core) (H : HookSpec core)
  (flag : Options H -> option bool) (read : Method H) :
  (forall o, autoTrigger H o = if not_false (flag o) then Some read else None) ->
  triggers_once core H flag read.
Proof.
  intros Hauto born o inputs b tr.
  destruct (agrees_life H born o inputs) as (_ & A2 & _ & A4 & _).
  split; [exact A2|]. intros c k Hk. unfold tr. rewrite (A4 _ _ Hk).
  unfold expected_auto. rewrite Hauto.
  destruct (flag (made_with H k)) as [[|]|]; reflexivity.
Qed.

(** C3.  For the five read-oriented hooks: over any life, every
    controller constructed gets the initial read ([fetch], or [record]
    for [useViews]) called on it by the effect exactly once when the
    option ([autoFetch], or [autoRecord]) was absent or true in the
    options it was constructed with, and never when it was false. *)
Theorem auto_trigger_once (core : Core) :
  triggers_once core (useReactions core) Reactions.autoFetch Reactions.Ctl.fetch /\
  triggers_once core (useComments core) Comments.autoFetch Comments.Ctl.fetch /\
  triggers_once core (useViews core) Views.autoRecord Views.Ctl.record /\
  triggers_once core (usePoll core) Poll.autoFetch Poll.Ctl.fetch /\
  triggers_once core (useAnnouncements core)
    Announcements.autoFetch Announcements.Ctl.fetch.
Proof.
  split; [apply triggers_once_of; reflexivity|].
  split; [apply triggers_once_of; reflexivity|].
  split; [apply triggers_once_of; reflexivity|].
  split; apply triggers_once_of; reflexivity.
Qed.

Lemma auto_trigger_once_witness :
  (fun k => Poll.autoFetch (made_with pollHook k)) <$>
    heap pollHook (fst (life pollHook bornPoll (pollOptions "a" None) pollFlags))
    = [None; Some false; Some true] /\
  auto_called pollHook 0 (snd (life pollHook bornPoll (pollOptions "a" None) pollFlags))
    = [Poll.Ctl.fetch] /\
  auto_called pollHook 1 (snd (life pollHook bornPoll (pollOptions "a" None) pollFlags))
    = [] /\
  auto_called pollHook 2 (snd (life pollHook bornPoll (pollOptions "a" None) pollFlags))
    = [Poll.Ctl.fetch].
Proof.
  destruct (auto_trigger_once sampleCore) as (_ & _ & _ & Hpoll & _).
  destruct (Hpoll bornPoll (pollOptions "a" None) pollFlags) as [_ Hcalls].
  split; [reflexivity|]. split; [|split].
  - exact (Hcalls 0 _ eq_refl).
  - exact (Hcalls 1 _ eq_refl).
  - exact (Hcalls 2 _ eq_refl).
Defined.

(** C4.  Each returned function that forwards an action calls, on the
    controller held by the reference, the corresponding method exactly
    once and with the very arguments it was given, and returns the
    promise of awaiting that call; such a promise is fulfilled only
    strictly after the controller's own promise was fulfilled. *)
Theorem actions_forwarded (core : Core) :
  (forall email, forwards_to core (useSubscribe core)
     (Subscribe.subscribe email) (Subscribe.Ctl.submit email)) /\
  (forall data, forwards_to core (useForm core)
     (Form.submit data) (Form.Ctl.submit data)) /\
  (forall type, forwards_to core (useReactions core)
     (Reactions.addReaction type) (Reactions.Ctl.add type)) /\
  (forall type, forwards_to core (useReactions core)
     (Reactions.removeReaction type) (Reactions.Ctl.remove type)) /\
  forwards_to core (useReactions core) Reactions.refresh Reactions.Ctl.fetch /\
  (forall author content options, forwards_to core (useComments core)
     (Comments.postComment author content options)
     (Comments.Ctl.post author content options)) /\
  forwards_to core (useComments core) Comments.refresh Comments.Ctl.fetch /\
  (forall email opts, forwards_to core (useWaitlist core)
     (Waitlist.join email opts) (Waitlist.Ctl.join email opts)) /\
  forwards_to core (useViews core) Views.record Views.Ctl.record /\
  forwards_to core (useViews core) Views.refresh Views.Ctl.fetch /\
  (forall type content opts, forwards_to core (useFeedback core)
     (Feedback.submit type content opts) (Feedback.Ctl.submit type content opts)) /\
  (forall selectedOptions, forwards_to core (usePoll core)
     (Poll.vote selectedOptions) (Poll.Ctl.vote selectedOptions)) /\
  forwards_to core (usePoll core) Poll.refresh Poll.Ctl.fetch /\
  (forall announcementId, forwards_to core (useAnnouncements core)
     (Announcements.dismiss announcementId)
     (Announcements.Ctl.dismiss announcementId)) /\
  forwards_to core (useAnnouncements core)
    Announcements.refresh Announcements.Ctl.fetch /\
  (forall f, settles_after core (hook core f)).
Proof.
  do 15 (split; [try intros; apply forwards_of; reflexivity|]).
  intros f. apply settles_after_any.
Qed.

Lemma actions_forwarded_witness :
  is_async pollHook (Poll.vote ["x"]) = true /\
  finish pollHook (Poll.vote ["x"]) 0 (Some (Returns (Some (Some (3, Fulfilled)))))
    = Returns (Some (Some (4, Fulfilled))) /\
  (Returns (Some (Some (3, Fulfilled))) = Returns None \/
   exists t0, Returns (Some (Some (3, Fulfilled))) = Returns (Some (Some (t0, Fulfilled)))
              /\ t0 < 4) /\
  invoke pollHook (Poll.vote ["x"]) 0 (Returns (Some (Some (3, Fulfilled)))) pollMounted
    = ([Called pollHook ByAction 0 (Poll.Ctl.vote ["x"])],
       Returns (Some (Some (4, Fulfilled)))).
Proof.
  destruct (actions_forwarded sampleCore)
    as (_ & _ & _ & _ & _ & _ & _ & _ & _ & _ & _ & Hvote & _ & _ & _ & Hsettle).
  split; [reflexivity|]. split; [reflexivity|]. split.
  - apply (Hsettle Feature.poll (Poll.vote ["x"]) 0
             (Returns (Some (Some (3, Fulfilled)))) 4); reflexivity.
  - destruct (Hvote ["x"] bornPoll (pollOptions "a" None) []
                0 (Returns (Some (Some (3, Fulfilled))))) as (c & Hc & Hcall).
    vm_compute in Hc. injection Hc as <-. exact Hcall.
Defined.

(** The dependency array of each hook holds the elements of its tuple
    and nothing else. *)
Lemma deps_configuration (core : Core) (f : Feature.t) (o1 o2 : Options (hook core f)) :
  deps (hook core f) o1 = deps (hook core f) o2 <->
  configuration core f o1 = configuration core f o2.
Proof. destruct f; simpl; split; intros E; injection E; intros; congruence. Qed.

(** Each effect constructs its controller with the resolved site key and
    endpoint of the options and with their identifier. *)
Lemma constructed_with (core : Core) (f : Feature.t) (o : Options (hook core f)) :
  resolveConfig core (config_of (hook core f) o) = resolved core (configuration core f o) /\
  ctor_args (hook core f) o = identifiers (configuration core f o).
Proof.
  unfold resolved, identifiers.
  destruct f;
    [destruct o as [sk ep] | destruct o as [[sk ep] slug]
    | destruct o as [[sk ep] id auto] | destruct o as [[sk ep] id auto]
    | destruct o as [sk ep] | destruct o as [[sk ep] id auto]
    | destruct o as [sk ep] | destruct o as [[sk ep] slug auto]
    | destruct o as [[sk ep] auto]]; split; reflexivity.
Qed.

(** C5.  For each hook, at a re-render of a mounted component whose
    committed effect constructed controller [c], with [p] the options of
    the previous render: if the tuple (site key, endpoint, identifier
    where the hook has one) of the new options equals that of [p],
    whatever else changed, the render produces no event and leaves the
    reference, the phase and the controllers as they are; if any
    element of it differs, the render produces exactly the
    deregistration from [c] followed by the construction of one new
    controller for the new tuple, its assignment to the reference, the
    registration of the listener on it and the automatic call, if any. *)
Theorem reconstruct_on_config_change (core : Core) (f : Feature.t)
  (born : Config core -> list string -> Answer (hook core f))
  (o : Options (hook core f)) (inputs : list (Input (hook core f)))
  (d : list (option string)) (c : nat) (o' : Options (hook core f)) :
  let H := hook core f in
  let b := fst (life H born o inputs) in
  let p := last_options H o inputs in
  phase H b = Mounted d c ->
  controllerRef H b = Some c /\
  (configuration core f o' = configuration core f p ->
     snd (step H born (Render H o') b) = [] /\
     controllerRef H (fst (step H born (Render H o') b)) = Some c /\
     phase H (fst (step H born (Render H o') b)) = Mounted d c /\
     heap H (fst (step H born (Render H o') b)) = heap H b) /\
  (configuration core f o' <> configuration core f p ->
     let c' := length (heap H b) in
     c' <> c /\
     snd (step H born (Render H o') b) =
       [Unsubscribed H c setState;
        Constructed H c' (resolved core (configuration core f o'))
          (identifiers (configuration core f o'));
        RefAssigned H c';
        Subscribed H c' setState] ++
       match autoTrigger H o' with
       | Some m => [Called H ByEffect c' m]
       | None => []
       end).
Proof.
  intros H b p Hp.
  pose proof (wf_life H born o inputs) as (_ & Ha & _).
  destruct (Ha c) as [Hr Hlt]; [unfold alive; fold b; rewrite Hp; reflexivity|].
  fold b in Hr, Hlt.
  pose proof (last_deps_life H born (hook_arity core f) o inputs d c Hp) as Hd.
  fold p in Hd.
  split; [exact Hr|]. split.
  - intros Ht. apply deps_configuration in Ht.
    assert (He : areHookInputsEqual (deps H o') d = true).
    { apply areHookInputsEqual_eq; [|rewrite Hd; exact Ht].
      rewrite Hd. apply hook_arity. }
    cbn [step]. rewrite (render_same H born o' b d c Hp He). simpl. auto.
  - intros Ht c'.
    assert (He : areHookInputsEqual (deps H o') d = false).
    { destruct (areHookInputsEqual (deps H o') d) eqn:E; [|reflexivity].
      exfalso. apply Ht. apply deps_configuration.
      change (deps H o' = deps H p). rewrite <- Hd.
      apply areHookInputsEqual_eq; [|exact E].
      rewrite Hd. apply hook_arity. }
    split; [unfold c'; lia|].
    cbn [step]. rewrite (render_changed H born o' b d c Hp He). cbn [snd].
    unfold effect_events.
    destruct (constructed_with core f o') as [E1 E2]. fold H in E1, E2.
    rewrite E1, E2. reflexivity.
Qed.

Lemma reconstruct_on_config_change_witness :
  (phase pollHook pollMounted = Mounted [Some "your-site-key"; None; Some "a"] 0 /\
   configuration sampleCore Feature.poll (pollOptions "a" (Some false))
     = configuration sampleCore Feature.poll (pollOptions "a" None) /\
   snd (step pollHook bornPoll (Render pollHook (pollOptions "a" (Some false)))
          pollMounted) = [] /\
   configuration sampleCore Feature.poll (pollOptions "b" None)
     <> configuration sampleCore Feature.poll (pollOptions "a" None) /\
   snd (step pollHook bornPoll (Render pollHook (pollOptions "b" None)) pollMounted)
     = [Unsubscribed pollHook 0 setState;
        Constructed pollHook 1 ("your-site-key", "https://api.seriph.xyz") ["b"];
        RefAssigned pollHook 1;
        Subscribed pollHook 1 setState;
        Called pollHook ByEffect 1 Poll.Ctl.fetch]) /\
  (phase formHook (fst (life formHook bornUnit (formOptions "contact") []))
     = Mounted [Some "your-site-key"; None; Some "contact"] 0 /\
   configuration sampleCore Feature.form (formOptions "newsletter")
     <> configuration sampleCore Feature.form (formOptions "contact") /\
   snd (step formHook bornUnit (Render formHook (formOptions "newsletter"))
          (fst (life formHook bornUnit (formOptions "contact") [])))
     = [Unsubscribed formHook 0 setState;
        Constructed formHook 1 ("your-site-key", "https://api.seriph.xyz")
          ["newsletter"];
        RefAssigned formHook 1;
        Subscribed formHook 1 setState]).
Proof.
  split.
  - destruct (reconstruct_on_config_change sampleCore Feature.poll bornPoll
                (pollOptions "a" None) [] [Some "your-site-key"; None; Some "a"] 0
                (pollOptions "a" (Some false)) eq_refl) as (_ & Hsame & _).
    destruct (reconstruct_on_config_change sampleCore Feature.poll bornPoll
                (pollOptions "a" None) [] [Some "your-site-key"; None; Some "a"] 0
                (pollOptions "b" None) eq_refl) as (_ & _ & Hdiff).
    split; [reflexivity|]. split; [reflexivity|].
    split; [apply Hsame; reflexivity|].
    assert (Hne : configuration sampleCore Feature.poll (pollOptions "b" None)
                  <> configuration sampleCore Feature.poll (pollOptions "a" None))
      by (simpl; discriminate).
    split; [exact Hne|]. apply (Hdiff Hne).
  - destruct (reconstruct_on_config_change sampleCore Feature.form bornUnit
                (formOptions "contact") [] [Some "your-site-key"; None; Some "contact"] 0
                (formOptions "newsletter") eq_refl) as (_ & _ & Hdiff).
    assert (Hne : configuration sampleCore Feature.form (formOptions "newsletter")
                  <> configuration sampleCore Feature.form (formOptions "contact"))
      by (simpl; discriminate).
    split; [reflexivity|]. split; [exact Hne|]. apply (Hdiff Hne).
Defined.

Lemma reads_alive_of (core : Core) (H : HookSpec core) (derived : Return H -> Answer H) :
  (forall st a, derived (returned H st (Some a)) = a) ->
  reads_alive core H derived.
Proof.
  intros Hd born o inputs d c o' b Hp.
  pose proof (wf_life H born o inputs) as (_ & Ha & _).
  destruct (Ha c) as [Hr Hlt]; [unfold alive; fold b; rewrite Hp; reflexivity|].
  fold b in Hr, Hlt. split; [exact Hr|].
  destruct (lookup_lt_is_Some_2 _ _ Hlt) as [k Hk]. exists k. split; [exact Hk|].
  cbn [step]. rewrite rendered_render by (rewrite Hp; discriminate).
  unfold call_hook, query. rewrite Hr, Hk. simpl. rewrite Hd. reflexivity.
Qed.

Lemma never_cached_of (core : Core) (H : HookSpec core) (derived : Return H -> Answer H) :
  (forall st a, derived (returned H st (Some a)) = a) ->
  never_cached core H derived.
Proof.
  intros Hd born o inputs d c a o' b Hp.
  pose proof (wf_life H born o inputs) as (_ & Ha & _).
  destruct (Ha c) as [Hr Hlt]; [unfold alive; fold b; rewrite Hp; reflexivity|].
  fold b in Hr, Hlt.
  destruct (lookup_lt_is_Some_2 _ _ Hlt) as [k Hk].
  rewrite !run_cons. cbn [fst run step].
  assert (Ei : internal H c a b = set_heap H (<[c := set_answer H a k]> (heap H b)) b)
    by (unfold internal; rewrite Hk; reflexivity).
  rewrite Ei. rewrite rendered_render by (simpl; rewrite Hp; discriminate).
  unfold call_hook, query. simpl. rewrite Hr.
  rewrite list_lookup_insert_eq by exact Hlt. simpl. rewrite Hd. reflexivity.
Qed.

(** C6, as written, fails: the derived values are not a live view of
    the controller.  Take the sample life of [usePoll]: the visitor
    votes on poll "a", the controller records the vote and notifies,
    React renders; then the slug changes to "b", with [autoFetch: false].
    The body of the hook runs first and reads [hasVoted()] from the
    controller still in the reference, that of "a": true.  The commit
    then deregisters from it, constructs the controller of "b", on which
    nobody voted, and assigns it; no render is queued.  From then on the
    consumer holds [hasVoted] true while the alive controller answers
    false.  The same with [useAnnouncements] when the endpoint changes:
    the consumer holds the announcement of the previous controller
    while the alive one has none to show. *)
Lemma derived_values_stale_after_commit :
  (Poll.hasVoted <$>
     rendered pollHook (fst (life pollHook bornPoll (pollOptions "a" None) pollLife))
     = Some true /\
   alive pollHook (fst (life pollHook bornPoll (pollOptions "a" None) pollLife))
     = Some 1 /\
   answer pollHook <$>
     heap pollHook (fst (life pollHook bornPoll (pollOptions "a" None) pollLife)) !! 1
     = Some false /\
   pending pollHook (fst (life pollHook bornPoll (pollOptions "a" None) pollLife))
     = false) /\
  (Announcements.announcements <$>
     rendered announcementsHook
       (fst (life announcementsHook bornAnnouncements (announcementsOptions None)
               announcementsLife))
     = Some [7%Z] /\
   alive announcementsHook
     (fst (life announcementsHook bornAnnouncements (announcementsOptions None)
             announcementsLife))
     = Some 1 /\
   answer announcementsHook <$>
     heap announcementsHook
       (fst (life announcementsHook bornAnnouncements (announcementsOptions None)
               announcementsLife)) !! 1
     = Some [] /\
   pending announcementsHook
     (fst (life announcementsHook bornAnnouncements (announcementsOptions None)
             announcementsLife))
     = false) /\
  ~ always_current sampleCore pollHook Poll.hasVoted /\
  ~ always_current sampleCore announcementsHook Announcements.announcements.
Proof.
  split; [repeat split|]. split; [repeat split|]. split.
  - intros Hc.
    pose proof (Hc bornPoll (pollOptions "a" None) pollLife 1 _ _
                  eq_refl eq_refl eq_refl eq_refl) as E.
    discriminate E.
  - intros Hc.
    pose proof (Hc bornAnnouncements (announcementsOptions None) announcementsLife 1 _ _
                  eq_refl eq_refl eq_refl eq_refl) as E.
    discriminate E.
Qed.

(** The same right after the mount, with a controller that knows of the
    visitor's vote as soon as it is constructed: the first call of the
    hook runs before the effect has constructed the controller and
    returns [hasVoted] false, and nothing calls the hook again. *)
Example hasVoted_before_the_controller :
  Poll.hasVoted <$>
    rendered pollHook (fst (life pollHook bornVoted (pollOptions "a" (Some false)) []))
    = Some false /\
  alive pollHook (fst (life pollHook bornVoted (pollOptions "a" (Some false)) []))
    = Some 0 /\
  answer pollHook <$>
    heap pollHook (fst (life pollHook bornVoted (pollOptions "a" (Some false)) [])) !! 0
    = Some true /\
  pending pollHook (fst (life pollHook bornVoted (pollOptions "a" (Some false)) []))
    = false.
Proof. repeat split. Qed.

(** C6, amended.  For [usePoll] and [useAnnouncements] the derived
    values are computed at each call of the hook: whenever the hook is
    called while a controller is alive, [hasVoted] (the [announcements]
    list) in the value it returns is what that controller, which is the
    one in the reference, answers to [hasVoted()]
    ([getVisibleAnnouncements()]) at that moment, and nothing is cached:
    whatever the controller has just come to answer, the next call
    returns it.  Between two calls the consumer holds the value of the
    last one: no step other than a render changes it. *)
Theorem derived_values_per_render (core : Core) :
  reads_alive core (usePoll core) Poll.hasVoted /\
  never_cached core (usePoll core) Poll.hasVoted /\
  reads_alive core (useAnnouncements core) Announcements.announcements /\
  never_cached core (useAnnouncements core) Announcements.announcements /\
  (forall (f : Feature.t) born (i : Input (hook core f)) (b : Bridge (hook core f)),
     (forall o, i <> Render (hook core f) o) ->
     rendered (hook core f) (fst (step (hook core f) born i b))
       = rendered (hook core f) b).
Proof.
  split; [apply reads_alive_of; reflexivity|].
  split; [apply never_cached_of; reflexivity|].
  split; [apply reads_alive_of; reflexivity|].
  split; [apply never_cached_of; reflexivity|].
  intros f born i b Hi. apply rendered_kept. exact Hi.
Qed.

Lemma derived_values_per_render_witness :
  phase pollHook (fst (life pollHook bornPoll (pollOptions "a" None)
                         [Internal pollHook 0 true]))
    = Mounted [Some "your-site-key"; None; Some "a"] 0 /\
  Poll.hasVoted <$>
    rendered pollHook
      (fst (step pollHook bornPoll (Render pollHook (pollOptions "a" None))
              (fst (life pollHook bornPoll (pollOptions "a" None)
                      [Internal pollHook 0 true]))))
    = Some true /\
  Poll.hasVoted <$>
    rendered pollHook
      (fst (run pollHook bornPoll
              [Internal pollHook 0 false; Render pollHook (pollOptions "a" None)]
              (fst (life pollHook bornPoll (pollOptions "a" None)
                      [Internal pollHook 0 true]))))
    = Some false /\
  (forall o, Internal pollHook 0 true <> Render pollHook o) /\
  rendered pollHook (fst (step pollHook bornPoll (Internal pollHook 0 true) pollMounted))
    = rendered pollHook pollMounted.
Proof.
  destruct (derived_values_per_render sampleCore) as (Hreads & Hfresh & _ & _ & Hkept).
  split; [reflexivity|]. split; [|split; [|split; [discriminate|]]].
  - destruct (Hreads bornPoll (pollOptions "a" None) [Internal pollHook 0 true]
                [Some "your-site-key"; None; Some "a"] 0 (pollOptions "a" None) eq_refl)
      as (_ & k & Hk & Hr).
    vm_compute in Hk. injection Hk as <-. exact Hr.
  - apply (Hfresh bornPoll (pollOptions "a" None) [Internal pollHook 0 true]
             [Some "your-site-key"; None; Some "a"] 0 false (pollOptions "a" None)).
    reflexivity.
  - apply (Hkept Feature.poll bornPoll (Internal pollHook 0 true) pollMounted).
    discriminate.
Defined.

(** C7.  For each hook, wherever a deregistration from controller [c]
    occurs in the trace of a life, the reference as the assignments
    before it left it holds [c], and it still does right after: the
    assignment that replaces it comes later in the trace, and on unmount
    none comes.  In terms of the bridge: while the effect of [c] is
    committed the reference holds [c], and running the cleanup leaves
    it there. *)
Theorem teardown_before_discard (core : Core) (f : Feature.t)
  (born : Config core -> list string -> Answer (hook core f))
  (o : Options (hook core f)) (inputs : list (Input (hook core f))) :
  let H := hook core f in
  let b := fst (life H born o inputs) in
  let tr := snd (life H born o inputs) in
  (forall pre c l post,
     tr = pre ++ Unsubscribed H c l :: post ->
     ref_after H pre = Some c /\
     ref_after H (pre ++ [Unsubscribed H c l]) = Some c) /\
  (forall d c,
     phase H b = Mounted d c ->
     controllerRef H b = Some c /\
     controllerRef H (fst (run_cleanup H b)) = Some c /\
     snd (run_cleanup H b) = [Unsubscribed H c setState]).
Proof.
  intros H b tr. split.
  - intros pre c l post Htr.
    destruct (agrees_life H born o inputs) as (_ & _ & _ & _ & _ & A6 & _).
    fold tr in A6. rewrite Htr in A6. apply disciplined_prefix in A6.
    unfold ref_after. rewrite fold_left_app. simpl. auto.
  - intros d c Hp.
    pose proof (wf_life H born o inputs) as (_ & Ha & _).
    destruct (Ha c) as [Hr _]; [unfold alive; fold b; rewrite Hp; reflexivity|].
    fold b in Hr. split; [exact Hr|].
    unfold run_cleanup. rewrite Hp. simpl. split; [|reflexivity].
    unfold unsubscribe. destruct (heap H b !! c); exact Hr.
Qed.

Lemma teardown_before_discard_witness :
  snd (life pollHook bornPoll (pollOptions "a" None)
         [Render pollHook (pollOptions "b" None)])
    = [Constructed pollHook 0 ("your-site-key", "https://api.seriph.xyz") ["a"];
       RefAssigned pollHook 0; Subscribed pollHook 0 setState;
       Called pollHook ByEffect 0 Poll.Ctl.fetch]
      ++ Unsubscribed pollHook 0 setState
      :: [Constructed pollHook 1 ("your-site-key", "https://api.seriph.xyz") ["b"];
          RefAssigned pollHook 1; Subscribed pollHook 1 setState;
          Called pollHook ByEffect 1 Poll.Ctl.fetch] /\
  ref_after pollHook
    [Constructed pollHook 0 ("your-site-key", "https://api.seriph.xyz") ["a"];
     RefAssigned pollHook 0; Subscribed pollHook 0 setState;
     Called pollHook ByEffect 0 Poll.Ctl.fetch] = Some 0 /\
  phase pollHook pollMounted = Mounted [Some "your-site-key"; None; Some "a"] 0 /\
  controllerRef pollHook (fst (run_cleanup pollHook pollMounted)) = Some 0.
Proof.
  destruct (teardown_before_discard sampleCore Feature.poll bornPoll
              (pollOptions "a" None) [Render pollHook (pollOptions "b" None)])
    as [Htrace _].
  destruct (teardown_before_discard sampleCore Feature.poll bornPoll
              (pollOptions "a" None) []) as [_ Hbridge].
  split; [reflexivity|]. split; [|split; [reflexivity|]].
  - apply (Htrace _ 0 setState _ eq_refl).
  - apply (Hbridge [Some "your-site-key"; None; Some "a"] 0 eq_refl).
Defined.

(** C8.  For each hook, at any moment of a life: an exception thrown by
    the controller's method reaches the caller of the returned function
    as it is (as the rejection of the promise for an [async] function),
    a rejection of the controller's promise is the rejection of the
    returned promise with the same error; calling a returned function
    changes nothing in the bridge; and the mirrored state changes only
    when a controller notifies, to the snapshot it notifies. *)
Theorem errors_not_intercepted (core : Core) (f : Feature.t)
  (born : Config core -> list string -> Answer (hook core f))
  (o : Options (hook core f)) (inputs : list (Input (hook core f))) :
  let H := hook core f in
  let b := fst (life H born o inputs) in
  (forall a now e,
     snd (invoke H a now (Throws e) b) =
       if is_async H a then Returns (Some (Some (now, Rejected e))) else Throws e) /\
  (forall a now t e,
     snd (invoke H a now (Returns (Some (Some (t, Rejected e)))) b) =
       if is_async H a then Returns (Some (Some (S (Nat.max now t), Rejected e)))
       else Returns None) /\
  (forall a now reply, fst (step H born (Invoke H a now reply) b) = b) /\
  (forall i (b0 : Bridge H),
     state H (fst (step H born i b0)) = state H b0 \/
     exists c s, i = Emit H c s /\ state H (fst (step H born i b0)) = s).
Proof.
  intros H b. destruct (ref_life H born o inputs) as [c Hc]. fold b in Hc.
  split; [|split; [|split]].
  - intros a now e. unfold invoke, finish. rewrite Hc. simpl.
    destruct (is_async H a); reflexivity.
  - intros a now t e. unfold invoke, finish. rewrite Hc. simpl.
    destruct (is_async H a); reflexivity.
  - reflexivity.
  - intros i b0. apply state_step.
Qed.

(** C9.  The value each of the nine hooks returns at its first call,
    before any effect has run: status idle, no error, and the empty
    payload of the feature.  It is what the first render hands to the
    consumer, and the mirrored state stays the initial one for as long
    as no controller has notified. *)
Theorem initial_state_idle (core : Core) :
  (forall o, call_hook (useSubscribe core) (create (useSubscribe core) o) =
     {| Subscribe.status := Status.idle; Subscribe.message := None;
        Subscribe.error := None |}) /\
  (forall o, call_hook (useForm core) (create (useForm core) o) =
     {| Form.status := Status.idle; Form.message := None; Form.error := None |}) /\
  (forall o, call_hook (useReactions core) (create (useReactions core) o) =
     {| Reactions.counts := ∅; Reactions.userReactions := [];
        Reactions.status := Status.idle; Reactions.error := None |}) /\
  (forall o, call_hook (useComments core) (create (useComments core) o) =
     {| Comments.comments := []; Comments.status := Status.idle;
        Comments.error := None |}) /\
  (forall o, call_hook (useWaitlist core) (create (useWaitlist core) o) =
     {| Waitlist.status := Status.idle; Waitlist.message := None;
        Waitlist.position := None; Waitlist.error := None |}) /\
  (forall o, call_hook (useViews core) (create (useViews core) o) =
     {| Views.views := 0; Views.uniqueVisitors := 0;
        Views.status := Status.idle; Views.error := None |}) /\
  (forall o, call_hook (useFeedback core) (create (useFeedback core) o) =
     {| Feedback.status := Status.idle; Feedback.message := None;
        Feedback.error := None |}) /\
  (forall o, call_hook (usePoll core) (create (usePoll core) o) =
     {| Poll.spread :=
          {| Poll.poll := None; Poll.status := Status.idle; Poll.error := None |};
        Poll.hasVoted := false |}) /\
  (forall o, call_hook (useAnnouncements core) (create (useAnnouncements core) o) =
     {| Announcements.announcements := []; Announcements.status := Status.idle;
        Announcements.error := None |}) /\
  (forall f born o,
     rendered (hook core f) (fst (life (hook core f) born o [])) =
       Some (call_hook (hook core f) (create (hook core f) o))) /\
  (forall f born o inputs,
     forallb (fun i => negb (is_emit (hook core f) i)) inputs = true ->
     state (hook core f) (fst (life (hook core f) born o inputs)) =
       initialState (hook core f) o).
Proof.
  do 9 (split; [reflexivity|]). split.
  - intros f born o. unfold life. rewrite run_cons. cbn [fst run step].
    apply rendered_render. simpl. discriminate.
  - intros f born o inputs Hq. unfold life.
    rewrite (state_run_quiet (hook core f) born (Render _ o :: inputs)); [reflexivity|].
    simpl. exact Hq.
Qed.

Lemma initial_state_idle_witness :
  forallb (fun i => negb (is_emit pollHook i))
    [Invoke pollHook (Poll.vote ["x"]) 0 (Returns None);
     Internal pollHook 0 true;
     Render pollHook (pollOptions "b" None)] = true /\
  state pollHook
    (fst (life pollHook bornPoll (pollOptions "a" None)
            [Invoke pollHook (Poll.vote ["x"]) 0 (Returns None);
             Internal pollHook 0 true;
             Render pollHook (pollOptions "b" None)]))
    = {| Poll.poll := None; Poll.status := Status.idle; Poll.error := None |}.
Proof.
  destruct (initial_state_idle sampleCore)
    as (_ & _ & _ & _ & _ & _ & _ & _ & _ & _ & Hquiet).
  split; [reflexivity|].
  apply (Hquiet Feature.poll bornPoll (pollOptions "a" None)). reflexivity.
Defined.

(** C10.  For each hook, while the reference is null: a returned
    function, called with any arguments, calls no controller method and
    leaves the bridge as it is; an [async] one returns a promise that is
    fulfilled at the next tick, a plain one ([reset]) returns without
    throwing; [usePoll] returns [hasVoted] false and [useAnnouncements]
    an empty [announcements] list. *)
Theorem null_reference_is_safe (core : Core) :
  (forall f born (b : Bridge (hook core f)),
     controllerRef (hook core f) b = None ->
     forall a now reply,
       invoke (hook core f) a now reply b =
         ([], if is_async (hook core f) a
              then Returns (Some (Some (S now, Fulfilled)))
              else Returns None) /\
       step (hook core f) born (Invoke (hook core f) a now reply) b = (b, [])) /\
  (forall b : Bridge (usePoll core),
     controllerRef (usePoll core) b = None ->
     Poll.hasVoted (call_hook (usePoll core) b) = false) /\
  (forall b : Bridge (useAnnouncements core),
     controllerRef (useAnnouncements core) b = None ->
     Announcements.announcements (call_hook (useAnnouncements core) b) = []).
Proof.
  split; [|split].
  - intros f born b Hr a now reply. simpl. unfold invoke, finish. rewrite Hr.
    split; [|reflexivity]. simpl. destruct (is_async (hook core f) a); reflexivity.
  - intros b Hr. unfold call_hook, query. rewrite Hr. reflexivity.
  - intros b Hr. unfold call_hook, query. rewrite Hr. reflexivity.
Qed.

Lemma null_reference_is_safe_witness :
  controllerRef pollHook (create pollHook (pollOptions "a" None)) = None /\
  invoke pollHook (Poll.vote ["x"]) 7 (Throws {| error_message := "unreachable" |})
    (create pollHook (pollOptions "a" None))
    = ([], Returns (Some (Some (8, Fulfilled)))) /\
  Poll.hasVoted (call_hook pollHook (create pollHook (pollOptions "a" None))) = false /\
  controllerRef announcementsHook
    (create announcementsHook (announcementsOptions None)) = None /\
  Announcements.announcements
    (call_hook announcementsHook
       (create announcementsHook (announcementsOptions None))) = [].
Proof.
  destruct (null_reference_is_safe sampleCore) as (Hact & Hpoll & Hann).
  split; [reflexivity|]. split; [|split; [|split; [reflexivity|]]].
  - apply (Hact Feature.poll bornPoll (create pollHook (pollOptions "a" None)) eq_refl
             (Poll.vote ["x"]) 7 (Throws {| error_message := "unreachable" |})).
  - apply (Hpoll (create pollHook (pollOptions "a" None)) eq_refl).
  - apply (Hann (create announcementsHook (announcementsOptions None)) eq_refl).
Defined.

(** * More laws of the bridge *)

Section StepShape.
Context {core : Core} (H : HookSpec core).
Variable born : Config core -> list string -> Answer H.

(** The events of a step, read off the phase and the reference. *)
Lemma step_events i b :
  snd (step H born i b) =
  match i with
  | Render _ o =>
      match phase H b with
      | Initial => effect_events H o (length (heap H b))
      | Mounted d c =>
          if areHookInputsEqual (deps H o) d then []
          else Unsubscribed H c setState :: effect_events H o (length (heap H b))
      | Unmounted => []
      end
  | Unmount _ =>
      match phase H b with
      | Mounted _ c => [Unsubscribed H c setState]
      | _ => []
      end
  | Invoke _ a _ _ =>
      match controllerRef H b with
      | Some c => [Called H ByAction c (forward H a)]
      | None => []
      end
  | _ => []
  end.
Proof.
  destruct i as [o| |a now reply|c s|c a]; simpl; try reflexivity.
  - destruct (phase H b) as [|d c|] eqn:Hp.
    + rewrite (render_initial H born _ _ Hp). reflexivity.
    + destruct (areHookInputsEqual (deps H o) d) eqn:He.
      * rewrite (render_same H born _ _ _ _ Hp He). reflexivity.
      * rewrite (render_changed H born _ _ _ _ Hp He). reflexivity.
    + rewrite (render_unmounted H born _ _ Hp). reflexivity.
  - unfold unmount, run_cleanup. destruct (phase H b); reflexivity.
  - unfold invoke. destruct (controllerRef H b); reflexivity.
Qed.

(** The phase after a step. *)
Lemma step_phase i b :
  phase H (fst (step H born i b)) =
  match i with
  | Render _ o =>
      match phase H b with
      | Initial => Mounted (deps H o) (length (heap H b))
      | Mounted d c =>
          if areHookInputsEqual (deps H o) d then Mounted d c
          else Mounted (deps H o) (length (heap H b))
      | Unmounted => Unmounted
      end
  | Unmount _ => Unmounted
  | _ => phase H b
  end.
Proof.
  destruct i as [o| |a now reply|c s|c a]; simpl; try reflexivity.
  - destruct (phase H b) as [|d c|] eqn:Hp.
    + rewrite (render_initial H born _ _ Hp). cbn [fst].
      rewrite run_effect_bridge. reflexivity.
    + destruct (areHookInputsEqual (deps H o) d) eqn:He.
      * rewrite (render_same H born _ _ _ _ Hp He). exact Hp.
      * rewrite (render_changed H born _ _ _ _ Hp He). cbn [fst].
        rewrite run_effect_bridge. cbn [phase].
        rewrite (length_heap_unsubscribe H c setState
                   (set_rendered H (call_hook H b) b)). reflexivity.
    + rewrite (render_unmounted H born _ _ Hp). exact Hp.
  - unfold unmount. destruct (run_cleanup H b). reflexivity.
  - destruct (emit_frame H c s b) as [-> | ->]; reflexivity.
  - unfold internal. destruct (heap H b !! c); reflexivity.
Qed.

(** A step either leaves the reference and the number of controllers as
    they are, or allocates one controller and assigns it. *)
Lemma step_ref_heap i b :
  (controllerRef H (fst (step H born i b)) = controllerRef H b /\
   length (heap H (fst (step H born i b))) = length (heap H b) /\
   constructed H (snd (step H born i b)) = []) \/
  (controllerRef H (fst (step H born i b)) = Some (length (heap H b)) /\
   length (heap H (fst (step H born i b))) = S (length (heap H b)) /\
   constructed H (snd (step H born i b)) = [length (heap H b)]).
Proof.
  rewrite step_events.
  destruct i as [o| |a now reply|c s|c a]; simpl.
  - destruct (phase H b) as [|d c|] eqn:Hp.
    + right. rewrite (render_initial H born _ _ Hp). cbn [fst].
      rewrite length_heap_effect, run_effect_bridge, constructed_effect. auto.
    + destruct (areHookInputsEqual (deps H o) d) eqn:He.
      * left. rewrite (render_same H born _ _ _ _ Hp He). auto.
      * right. rewrite (render_changed H born _ _ _ _ Hp He). cbn [fst].
        rewrite length_heap_effect, run_effect_bridge. cbn [controllerRef].
        rewrite (length_heap_unsubscribe H c setState
                   (set_rendered H (call_hook H b) b)).
        change (Unsubscribed H c setState :: effect_events H o (length (heap H b)))
          with ([Unsubscribed H c setState] ++ effect_events H o (length (heap H b))).
        rewrite constructed_app, constructed_effect. auto.
    + left. rewrite (render_unmounted H born _ _ Hp). auto.
  - left. unfold unmount, run_cleanup. destruct (phase H b) as [|d c|]; simpl; auto.
    unfold unsubscribe. destruct (heap H b !! c); simpl; rewrite ?length_insert; auto.
  - left. destruct (controllerRef H b); auto.
  - left. destruct (emit_frame H c s b) as [-> | ->]; auto.
  - left. unfold internal. destruct (heap H b !! c); simpl; rewrite ?length_insert; auto.
Qed.

End StepShape.

Section MoreTraceLaws.
Context {core : Core} (H : HookSpec core).

(** *** Reading subscriptions off a trace *)

Lemma subscribed_app tr ev :
  subscribed H (tr ++ ev) = subscribed H tr ++ subscribed H ev.
Proof. apply omap_app. Qed.

Lemma unsubscribed_app tr ev :
  unsubscribed H (tr ++ ev) = unsubscribed H tr ++ unsubscribed H ev.
Proof. apply omap_app. Qed.

Lemma subscribed_effect o c : subscribed H (effect_events H o c) = [c].
Proof. unfold effect_events. simpl. destruct (autoTrigger H o); reflexivity. Qed.

Lemma unsubscribed_effect o c : unsubscribed H (effect_events H o c) = [].
Proof. unfold effect_events. simpl. destruct (autoTrigger H o); reflexivity. Qed.

Lemma reads_heard_app r tr ev :
  reads_heard H r (tr ++ ev) <->
  reads_heard H r tr /\ reads_heard H (fold_left (reg_step H) tr r) ev.
Proof.
  revert r. induction tr as [|e tr IH]; intros r; simpl; [tauto|].
  destruct e as [c cfg ids|c|c l|c l|[|] c m]; simpl; rewrite IH; tauto.
Qed.

Lemma reads_heard_prefix r pre c m post :
  reads_heard H r (pre ++ Called H ByEffect c m :: post) ->
  fold_left (reg_step H) pre r = Some c.
Proof.
  intros Hd. destruct (proj1 (reads_heard_app r pre _) Hd) as [_ Hd'].
  simpl in Hd'. apply Hd'.
Qed.

Lemma reads_heard_effect r o c : reads_heard H r (effect_events H o c).
Proof. unfold effect_events. simpl. destruct (autoTrigger H o); simpl; auto. Qed.

Lemma registered_effect r o c :
  fold_left (reg_step H) (effect_events H o c) r = Some c.
Proof. unfold effect_events. simpl. destruct (autoTrigger H o); reflexivity. Qed.

End MoreTraceLaws.

Section LifeInvariants.
Context {core : Core} (H : HookSpec core).
Variable born : Config core -> list string -> Answer H.

(** What holds of the created bridge with the empty trace and is kept
    by every step holds at every moment of every life. *)
Lemma life_invariant (P : Bridge H -> list (Event H) -> Prop) (o : Options H) :
  P (create H o) [] ->
  (forall i b tr, wf H b -> P b tr ->
     P (fst (step H born i b)) (tr ++ snd (step H born i b))) ->
  forall inputs, P (fst (life H born o inputs)) (snd (life H born o inputs)).
Proof.
  intros H0 Hstep inputs. unfold life.
  assert (G : forall inputs b tr, wf H b -> P b tr ->
            P (fst (run H born inputs b)) (tr ++ snd (run H born inputs b))).
  { clear inputs. induction inputs as [|i inputs IH]; intros b tr Hwf Hb.
    - simpl. rewrite app_nil_r. exact Hb.
    - rewrite run_cons. cbn [fst snd]. rewrite app_assoc.
      apply IH; [apply wf_step, Hwf|apply Hstep; assumption]. }
  apply (G (Render H o :: inputs) (create H o) []); [apply wf_create|exact H0].
Qed.

(** The bridge subscribes to every controller it constructs, and has
    deregistered from all of them but the alive one, in order. *)
Lemma balance_life o inputs :
  let b := fst (life H born o inputs) in
  let tr := snd (life H born o inputs) in
  subscribed H tr = constructed H tr /\
  constructed H tr = unsubscribed H tr ++ option_list (alive H b).
Proof.
  apply (life_invariant
           (fun b tr => subscribed H tr = constructed H tr /\
                        constructed H tr = unsubscribed H tr ++ option_list (alive H b))).
  - split; reflexivity.
  - intros i b tr _ [Hs Hc].
    rewrite (subscribed_app H), constructed_app, (unsubscribed_app H), Hs.
    unfold alive in *. rewrite step_phase, step_events.
    destruct i as [o'| |a now reply|c s|c a]; cbv beta iota;
      [destruct (phase H b) as [|d c|]; cbv beta iota;
       [|destruct (areHookInputsEqual (deps H o') d); cbv beta iota;
         [|change (Unsubscribed H c setState
                     :: effect_events H o' (length (heap H b)))
             with ([Unsubscribed H c setState]
                     ++ effect_events H o' (length (heap H b)))]|]
      |destruct (phase H b) as [|d c|]
      |destruct (controllerRef H b)| |];
      rewrite ?subscribed_app, ?constructed_app, ?unsubscribed_app,
        ?subscribed_effect, ?constructed_effect, ?unsubscribed_effect;
      simpl in *; rewrite ?app_nil_r in *;
      (split; [reflexivity|]); rewrite ?Hc, <- ?app_assoc; reflexivity.
Qed.

(** The reference holds the controller allocated last. *)
Lemma ref_latest_life o inputs :
  let b := fst (life H born o inputs) in
  controllerRef H b = last (seq 0 (length (heap H b))).
Proof.
  apply (life_invariant
           (fun b _ => controllerRef H b = last (seq 0 (length (heap H b))))).
  - reflexivity.
  - intros i b tr _ Hb.
    destruct (step_ref_heap H born i b) as [(-> & -> & _)|(-> & -> & _)]; [exact Hb|].
    rewrite seq_S, last_snoc. reflexivity.
Qed.

(** The effect subscribes before it reads. *)
Lemma heard_life o inputs :
  let b := fst (life H born o inputs) in
  let tr := snd (life H born o inputs) in
  reads_heard H None tr /\ registered_after H tr = alive H b.
Proof.
  apply (life_invariant
           (fun b tr => reads_heard H None tr /\ registered_after H tr = alive H b)).
  - split; [exact I|reflexivity].
  - intros i b tr _ [Hh Hr]. unfold registered_after in *.
    rewrite reads_heard_app, fold_left_app, Hr.
    unfold alive in *. rewrite step_phase, step_events.
    destruct i as [o'| |a now reply|c s|c a]; cbv beta iota;
      try (simpl; split; [split|]; auto; fail).
    + destruct (phase H b) as [|d c|]; cbv beta iota.
      * rewrite registered_effect. split; [split; [exact Hh|apply reads_heard_effect]|].
        reflexivity.
      * destruct (areHookInputsEqual (deps H o') d); cbv beta iota.
        -- split; [split; [exact Hh|exact I]|reflexivity].
        -- change (Unsubscribed H c setState :: effect_events H o' (length (heap H b)))
             with ([Unsubscribed H c setState] ++ effect_events H o' (length (heap H b))).
           rewrite reads_heard_app, fold_left_app, registered_effect.
           split; [|reflexivity]. split; [exact Hh|].
           split; [exact I|apply reads_heard_effect].
      * split; [split; [exact Hh|exact I]|reflexivity].
    + destruct (phase H b) as [|d c|]; simpl;
        rewrite ?bool_decide_eq_true_2 by reflexivity;
        split; try split; auto.
    + destruct (controllerRef H b); simpl; split; try split; auto.
Qed.

(** The alive controller was made for the committed dependency array. *)
Lemma made_for_life o inputs : alive_made_for H (fst (life H born o inputs)).
Proof.
  apply (life_invariant (fun b _ => alive_made_for H b)).
  - intros d c Hp. discriminate Hp.
  - intros i b tr _ Hb d c. rewrite step_phase.
    destruct i as [o'| |a now reply|c0 s|c0 a]; simpl.
    + destruct (phase H b) as [|d0 c1|] eqn:Hp.
      * intros [= <- <-]. rewrite (render_initial H born _ _ Hp). cbn [fst].
        rewrite run_effect_bridge. cbn [heap].
        rewrite list_lookup_middle by reflexivity. eexists. split; [reflexivity|].
        simpl. auto.
      * destruct (areHookInputsEqual (deps H o') d0) eqn:He.
        -- intros [= <- <-]. rewrite (render_same H born _ _ _ _ Hp He).
           apply (Hb _ _ Hp).
        -- intros [= <- <-]. rewrite (render_changed H born _ _ _ _ Hp He). cbn [fst].
           rewrite run_effect_bridge. cbn [heap].
           rewrite list_lookup_middle
             by (symmetry; apply (length_heap_unsubscribe H c1 setState
                                    (set_rendered H (call_hook H b) b))).
           eexists. split; [reflexivity|]. simpl. auto.
      * discriminate.
    + discriminate.
    + apply Hb.
    + intros Hp. destruct (emit_frame H c0 s b) as [-> | ->]; apply (Hb _ _ Hp).
    + intros Hp. destruct (Hb _ _ Hp) as (k & Hk & Hd & Hcfg & Hargs).
      unfold internal. destruct (heap H b !! c0) as [k0|] eqn:Hk0; [|eauto 6].
      simpl. destruct (decide (c = c0)) as [->|Hne].
      * rewrite list_lookup_insert_eq by (eapply lookup_lt_Some; eassumption).
        rewrite Hk in Hk0. injection Hk0 as <-. eexists. split; [reflexivity|].
        simpl. auto.
      * rewrite list_lookup_insert_ne by congruence. eauto 6.
Qed.

(** Mounted until the unmount, unmounted ever after. *)
Lemma phase_run inputs b :
  phase H b <> Initial ->
  (phase H (fst (run H born inputs b)) = Unmounted <->
   phase H b = Unmounted \/ In (Unmount H) inputs).
Proof.
  revert b. induction inputs as [|i inputs IH]; intros b Hp.
  - simpl. tauto.
  - rewrite run_cons. cbn [fst].
    assert (Hp' : phase H (fst (step H born i b)) <> Initial).
    { rewrite step_phase. destruct i as [o'| | | |]; try assumption; try discriminate.
      destruct (phase H b) as [|d c|]; try discriminate.
      destruct (areHookInputsEqual (deps H o') d); discriminate. }
    rewrite (IH _ Hp'). rewrite step_phase. simpl.
    destruct i as [o'| |a now reply|c s|c a].
    + destruct (phase H b) as [|d c|] eqn:E; [congruence| |].
      * destruct (areHookInputsEqual (deps H o') d);
          split; intros [F|F]; try discriminate; auto;
          destruct F as [F|F]; try discriminate; auto.
      * tauto.
    + tauto.
    + split; intros [F|F]; auto; destruct F as [F|F]; try discriminate; auto.
    + split; intros [F|F]; auto; destruct F as [F|F]; try discriminate; auto.
    + split; intros [F|F]; auto; destruct F as [F|F]; try discriminate; auto.
Qed.

Lemma phase_life o inputs :
  phase H (fst (life H born o inputs)) = Unmounted <-> In (Unmount H) inputs.
Proof.
  unfold life. rewrite run_cons. cbn [fst]. rewrite phase_run.
  - rewrite step_phase. simpl. split; [intros [F|F]; [discriminate|exact F]|auto].
  - rewrite step_phase. simpl. discriminate.
Qed.

(** Once committed, never initial again. *)
Lemma phase_run_committed inputs b :
  phase H b <> Initial -> phase H (fst (run H born inputs b)) <> Initial.
Proof.
  revert b. induction inputs as [|i inputs IH]; intros b Hp; [exact Hp|].
  rewrite run_cons. cbn [fst]. apply IH. rewrite step_phase.
  destruct i as [o'| | | |]; try assumption; try discriminate.
  destruct (phase H b) as [|d c|]; try discriminate.
  destruct (areHookInputsEqual (deps H o') d); discriminate.
Qed.

Lemma alive_life o inputs :
  ~ In (Unmount H) inputs ->
  exists c, alive H (fst (life H born o inputs)) = Some c.
Proof.
  intros Hn. unfold alive.
  destruct (phase H (fst (life H born o inputs))) as [|d c|] eqn:Hp.
  - exfalso. revert Hp. unfold life. rewrite run_cons. cbn [fst].
    apply phase_run_committed. rewrite step_phase. simpl. discriminate.
  - eauto.
  - apply phase_life in Hp. contradiction.
Qed.

End LifeInvariants.

Section Counting.
Context {core : Core} (H : HookSpec core).
Variable born : Config core -> list string -> Answer H.

(** After the unmount nothing is constructed. *)
Lemma constructed_unmounted inputs b :
  phase H b = Unmounted -> constructed H (snd (run H born inputs b)) = [].
Proof.
  revert b. induction inputs as [|i inputs IH]; intros b Hp; [reflexivity|].
  rewrite run_cons. cbn [snd]. rewrite constructed_app, IH.
  - rewrite step_events. destruct i as [o'| |a now reply|c s|c a]; simpl;
      rewrite ?Hp; try reflexivity.
    destruct (controllerRef H b); reflexivity.
  - rewrite step_phase. destruct i; simpl; rewrite ?Hp; reflexivity.
Qed.

Hypothesis arity : forall o o', length (deps H o) = length (deps H o').

(** From a mounted bridge on, one controller is constructed for every
    render whose tuple differs from that of the render before. *)
Lemma constructed_run inputs b p c :
  phase H b = Mounted (deps H p) c ->
  length (constructed H (snd (run H born inputs b))) = reconfigurations H p inputs.
Proof.
  revert b p c. induction inputs as [|i inputs IH]; intros b p c Hp; [reflexivity|].
  rewrite run_cons. cbn [snd]. rewrite constructed_app, length_app, step_events.
  pose proof (step_phase H born i b) as Hph.
  remember (fst (step H born i b)) as b1 eqn:E1. clear E1.
  destruct i as [o'| |a now reply|c0 s|c0 a]; cbn [reconfigurations];
    cbv beta iota in Hph; rewrite ?Hp in Hph.
  - rewrite Hp. destruct (areHookInputsEqual (deps H o') (deps H p)) eqn:He.
    + assert (Ed : deps H o' = deps H p)
        by (apply areHookInputsEqual_eq; [apply arity|exact He]).
      rewrite bool_decide_eq_true_2 by exact Ed. simpl.
      apply (IH _ o' c). rewrite Hph, Ed. reflexivity.
    + change (Unsubscribed H c setState :: effect_events H o' (length (heap H b)))
        with ([Unsubscribed H c setState] ++ effect_events H o' (length (heap H b))).
      rewrite constructed_app, constructed_effect. simpl.
      rewrite bool_decide_eq_false_2.
      * f_equal. apply (IH _ o' (length (heap H b))).
        exact Hph.
      * intros Ed. apply (areHookInputsEqual_eq _ _ (arity o' p)) in Ed. congruence.
  - rewrite Hp. simpl. rewrite constructed_unmounted; [reflexivity|exact Hph].
  - assert (E : constructed H
                  match controllerRef H b with
                  | Some c1 => [Called H ByAction c1 (forward H a)]
                  | None => []
                  end = []) by (destruct (controllerRef H b); reflexivity).
    rewrite E. simpl. apply (IH _ p c). exact Hph.
  - simpl. apply (IH _ p c). exact Hph.
  - simpl. apply (IH _ p c). exact Hph.
Qed.

Lemma constructed_life o inputs :
  length (constructed H (snd (life H born o inputs))) = S (reconfigurations H o inputs).
Proof.
  unfold life. rewrite run_cons. cbn [snd]. rewrite constructed_app, length_app.
  rewrite step_events.
  pose proof (step_phase H born (Render H o) (create H o)) as Hph.
  remember (fst (step H born (Render H o) (create H o))) as b1 eqn:E1. clear E1.
  cbv beta iota in *. cbn [create phase heap length] in *.
  rewrite constructed_effect. simpl. f_equal.
  apply (constructed_run inputs b1 o 0). exact Hph.
Qed.

(** Controllers are allocated as they are constructed. *)
Lemma heap_run inputs b :
  length (heap H (fst (run H born inputs b))) =
  length (heap H b) + length (constructed H (snd (run H born inputs b))).
Proof.
  revert b. induction inputs as [|i inputs IH]; intros b; [simpl; lia|].
  rewrite run_cons. cbn [fst snd]. rewrite constructed_app, length_app, IH.
  destruct (step_ref_heap H born i b) as [(_ & -> & ->)|(_ & -> & ->)]; simpl; lia.
Qed.

(** The mount under [StrictMode] constructs two controllers and leaves
    the second alive. *)
Lemma strict_mount_shape o :
  phase H (fst (strict_mount H born o)) = Mounted (deps H o) 1 /\
  length (heap H (fst (strict_mount H born o))) = 2 /\
  snd (strict_mount H born o) =
    effect_events H o 0 ++ [Unsubscribed H 0 setState] ++ effect_events H o 1.
Proof.
  unfold strict_mount.
  rewrite (render_initial H born o (create H o) eq_refl).
  remember (set_rendered H (call_hook H (create H o)) (create H o)) as b0 eqn:E0.
  assert (Hh0 : heap H b0 = []) by (rewrite E0; reflexivity).
  pose proof (run_effect_bridge H born o b0) as E1.
  remember (fst (run_effect H born o b0)) as b1 eqn:Eb1. clear Eb1.
  rewrite Hh0 in E1. cbn [length app] in E1.
  unfold run_cleanup. rewrite E1. cbn [phase].
  remember (unsubscribe H 0 setState _) as b2 eqn:E2.
  assert (Hh2 : length (heap H b2) = 1)
    by (rewrite E2, length_heap_unsubscribe; reflexivity).
  pose proof (run_effect_bridge H born o b2) as E3.
  assert (Ev : snd (run_effect H born o b2) = effect_events H o (length (heap H b2)))
    by reflexivity.
  destruct (run_effect H born o b2) as [b3 ev3]. cbn [fst snd] in *.
  rewrite E3, Ev, Hh2. cbn [phase heap]. rewrite length_app, Hh2.
  split; [reflexivity|]. split; reflexivity.
Qed.

Lemma constructed_strict_life o inputs :
  length (constructed H (snd (strict_life H born o inputs))) =
    S (S (reconfigurations H o inputs)) /\
  length (heap H (fst (strict_life H born o inputs))) =
    S (S (reconfigurations H o inputs)).
Proof.
  destruct (strict_mount_shape o) as (Hp & Hh & Hev).
  unfold strict_life.
  destruct (strict_mount H born o) as [b ev]. cbn [fst snd] in *.
  pose proof (constructed_run inputs b o 1 Hp) as Hc.
  pose proof (heap_run inputs b) as Hr.
  destruct (run H born inputs b) as [b' ev']. cbn [fst snd] in *.
  rewrite constructed_app, length_app, Hev, !constructed_app, !constructed_effect.
  simpl. rewrite Hc. split; [reflexivity|]. rewrite Hr, Hh, Hc. reflexivity.
Qed.

End Counting.

(** The renders that change the dependency array are those that change
    the tuple. *)
Lemma reconfigurations_tuple (core : Core) (f : Feature.t)
  (p : Options (hook core f)) (inputs : list (Input (hook core f))) :
  reconfigurations (hook core f) p inputs = tuple_changes core f p inputs.
Proof.
  revert p. induction inputs as [|i inputs IH]; intros p; [reflexivity|].
  destruct i as [o'| |a now reply|c s|c a]; cbn [reconfigurations tuple_changes];
    rewrite ?IH; try reflexivity.
  rewrite (bool_decide_ext _ _ (deps_configuration core f o' p)). reflexivity.
Qed.

(** * Further properties of the hooks *)

(** X1.  For each hook, at every moment of a life: a controller holds
    the bridge's listener at most once, and only the controller in the
    reference can hold it; as long as the component has not been
    unmounted that controller does hold it; once it has been unmounted
    no controller holds a listener of the bridge. *)
Theorem listener_on_one_controller (core : Core) (f : Feature.t)
  (born : Config core -> list string -> Answer (hook core f))
  (o : Options (hook core f)) (inputs : list (Input (hook core f))) :
  let H := hook core f in
  let b := fst (life H born o inputs) in
  (forall c k, heap H b !! c = Some k ->
     listeners H k = [] \/
     (listeners H k = [setState] /\ controllerRef H b = Some c)) /\
  (~ In (Unmount H) inputs ->
     exists c k, controllerRef H b = Some c /\ heap H b !! c = Some k /\
                 listeners H k = [setState]) /\
  (In (Unmount H) inputs ->
     forall c k, heap H b !! c = Some k -> listeners H k = []).
Proof.
  intros H b. pose proof (wf_life H born o inputs) as (Hl & Ha & _).
  fold b in Hl, Ha. split; [|split].
  - intros c k Hk. rewrite (Hl _ _ Hk).
    destruct (bool_decide (alive H b = Some c)) eqn:E; [|auto].
    apply bool_decide_eq_true in E. right. split; [reflexivity|apply Ha, E].
  - intros Hn. destruct (alive_life H born o inputs Hn) as [c Hc]. fold b in Hc.
    destruct (Ha _ Hc) as [Hr Hlt].
    destruct (lookup_lt_is_Some_2 _ _ Hlt) as [k Hk].
    exists c, k. split; [exact Hr|]. split; [exact Hk|].
    rewrite (Hl _ _ Hk), bool_decide_eq_true_2 by exact Hc. reflexivity.
  - intros Hu c k Hk. apply (phase_life H born o) in Hu. fold b in Hu.
    rewrite (Hl _ _ Hk). unfold alive. rewrite Hu.
    rewrite bool_decide_eq_false_2 by discriminate. reflexivity.
Qed.

Lemma listener_on_one_controller_witness :
  (~ In (Unmount pollHook) pollLife /\
   exists c k,
     controllerRef pollHook (fst (life pollHook bornPoll (pollOptions "a" None) pollLife))
       = Some c /\
     heap pollHook (fst (life pollHook bornPoll (pollOptions "a" None) pollLife)) !! c
       = Some k /\
     listeners pollHook k = [setState]) /\
  (In (Unmount subscribeHook) subscribeLife /\
   forall c k,
     heap subscribeHook (fst (life subscribeHook bornUnit sampleOptions subscribeLife)) !! c
       = Some k ->
     listeners subscribeHook k = []).
Proof.
  split.
  - assert (Hn : ~ In (Unmount pollHook) pollLife)
      by (unfold pollLife; simpl; intuition discriminate).
    split; [exact Hn|].
    apply (listener_on_one_controller sampleCore Feature.poll bornPoll
             (pollOptions "a" None) pollLife). exact Hn.
  - assert (Hu : In (Unmount subscribeHook) subscribeLife)
      by (unfold subscribeLife; simpl; auto).
    split; [exact Hu|].
    apply (listener_on_one_controller sampleCore Feature.subscribe bornUnit
             sampleOptions subscribeLife). exact Hu.
Defined.

(** X2.  For each hook, at every moment of a life, the unmount
    included: the reference holds the controller constructed last; it is
    never cleared, so every returned function, whenever it is called,
    calls that controller, also when the bridge has deregistered from
    it. *)
Theorem reference_holds_latest (core : Core) (f : Feature.t)
  (born : Config core -> list string -> Answer (hook core f))
  (o : Options (hook core f)) (inputs : list (Input (hook core f))) :
  let H := hook core f in
  let b := fst (life H born o inputs) in
  let tr := snd (life H born o inputs) in
  controllerRef H b = last (constructed H tr) /\
  exists c, last (constructed H tr) = Some c /\
    forall a now reply,
      fst (invoke H a now reply b) = [Called H ByAction c (forward H a)].
Proof.
  intros H b tr.
  destruct (agrees_life H born o inputs) as (_ & A2 & _).
  pose proof (ref_latest_life H born o inputs) as Hr. simpl in Hr.
  fold b in Hr, A2. fold tr in A2. rewrite <- A2 in Hr.
  split; [exact Hr|].
  destruct (ref_life H born o inputs) as [c Hc]. fold b in Hc.
  exists c. split; [congruence|].
  intros a now reply. unfold invoke. rewrite Hc. reflexivity.
Qed.

(** After the unmount of the sample [useSubscribe] component,
    [subscribe] still reaches the controller. *)
Example subscribe_after_unmount :
  fst (invoke subscribeHook (Subscribe.subscribe "user@example.com") 0 (Returns None)
         (fst (life subscribeHook bornUnit sampleOptions subscribeLife)))
  = [Called subscribeHook ByAction 0 (Subscribe.Ctl.submit "user@example.com")].
Proof. reflexivity. Qed.

(** X3.  For each hook, whenever a controller is alive: the effect that
    constructed it ran with options that have the site key, the
    endpoint and the identifier of the options of the latest render,
    whatever else differs between them; the controller holds the
    configuration [resolveConfig] gave for that site key and endpoint,
    and it was given that identifier (form slug, content id, page id,
    poll slug; none for the hooks without one). *)
Theorem alive_controller_is_current (core : Core) (f : Feature.t)
  (born : Config core -> list string -> Answer (hook core f))
  (o : Options (hook core f)) (inputs : list (Input (hook core f)))
  (d : list (option string)) (c : nat) :
  let H := hook core f in
  let b := fst (life H born o inputs) in
  let p := last_options H o inputs in
  phase H b = Mounted d c ->
  exists k, heap H b !! c = Some k /\
    configuration core f (made_with H k) = configuration core f p /\
    config H k = resolved core (configuration core f (made_with H k)) /\
    args H k = identifiers (configuration core f p).
Proof.
  intros H b p Hp.
  destruct (made_for_life H born o inputs d c Hp) as (k & Hk & Hd & Hcfg & Hargs).
  pose proof (last_deps_life H born (hook_arity core f) o inputs d c Hp) as Hlast.
  fold p in Hlast. rewrite Hlast in Hd. apply deps_configuration in Hd.
  destruct (constructed_with core f (made_with H k)) as [E1 E2]. fold H in E1, E2.
  exists k. split; [exact Hk|]. split; [exact Hd|].
  rewrite <- E1, <- Hd, <- E2. auto.
Qed.

Lemma alive_controller_is_current_witness :
  phase pollHook
    (fst (life pollHook bornPoll (pollOptions "a" None)
            (pollFlags ++ [Render pollHook (pollOptions "c" None)])))
    = Mounted [Some "your-site-key"; None; Some "c"] 2 /\
  last_options pollHook (pollOptions "a" None)
    (pollFlags ++ [Render pollHook (pollOptions "c" None)]) = pollOptions "c" None /\
  exists k,
    heap pollHook
      (fst (life pollHook bornPoll (pollOptions "a" None)
              (pollFlags ++ [Render pollHook (pollOptions "c" None)]))) !! 2
      = Some k /\
    made_with pollHook k = pollOptions "c" (Some true) /\
    config pollHook k = ("your-site-key", "https://api.seriph.xyz") /\
    args pollHook k = ["c"].
Proof.
  split; [reflexivity|]. split; [reflexivity|].
  destruct (alive_controller_is_current sampleCore Feature.poll bornPoll
              (pollOptions "a" None)
              (pollFlags ++ [Render pollHook (pollOptions "c" None)])
              [Some "your-site-key"; None; Some "c"] 2 eq_refl)
    as (k & Hk & _ & Hcfg & Hargs).
  exists k. split; [exact Hk|]. injection Hk as <-.
  split; [reflexivity|]. split; [exact Hcfg|exact Hargs].
Defined.

(** X4.  For each hook, over any life: the bridge calls [subscribe]
    exactly once on every controller it constructs, and it has called
    the deregistration function exactly once for each of them but the
    alive one, in the order of construction; after the unmount it has
    deregistered from every controller it ever subscribed to. *)
Theorem subscriptions_balanced (core : Core) (f : Feature.t)
  (born : Config core -> list string -> Answer (hook core f))
  (o : Options (hook core f)) (inputs : list (Input (hook core f))) :
  let H := hook core f in
  let b := fst (life H born o inputs) in
  let tr := snd (life H born o inputs) in
  subscribed H tr = constructed H tr /\
  subscribed H tr = unsubscribed H tr ++ option_list (alive H b) /\
  NoDup (subscribed H tr) /\
  (In (Unmount H) inputs -> unsubscribed H tr = subscribed H tr).
Proof.
  intros H b tr.
  destruct (balance_life H born o inputs) as [Hs Hc]. fold b tr in Hs, Hc.
  destruct (agrees_life H born o inputs) as (_ & A2 & _). fold b tr in A2.
  split; [exact Hs|]. split; [congruence|]. split.
  - rewrite Hs, A2. apply NoDup_ListNoDup, List.seq_NoDup.
  - intros Hu. apply (phase_life H born o) in Hu. fold b in Hu.
    rewrite Hs, Hc. unfold alive. rewrite Hu. simpl. rewrite app_nil_r. reflexivity.
Qed.

Lemma subscriptions_balanced_witness :
  In (Unmount subscribeHook) subscribeLife /\
  unsubscribed subscribeHook
    (snd (life subscribeHook bornUnit sampleOptions subscribeLife))
  = subscribed subscribeHook
      (snd (life subscribeHook bornUnit sampleOptions subscribeLife)).
Proof.
  assert (Hu : In (Unmount subscribeHook) subscribeLife)
    by (unfold subscribeLife; simpl; auto).
  split; [exact Hu|].
  apply (subscriptions_balanced sampleCore Feature.subscribe bornUnit
           sampleOptions subscribeLife). exact Hu.
Defined.

(** X5.  For each hook: a snapshot delivered by the alive controller
    stays the mirrored state, and what the hook returns stays its
    fields, through everything that is not another notification:
    renders, calls of the returned functions, the replacement of the
    controller on a change of configuration, and the unmount.  The
    state is not reset when a new controller is constructed. *)
Theorem snapshot_kept_until_next (core : Core) (f : Feature.t)
  (born : Config core -> list string -> Answer (hook core f))
  (o : Options (hook core f)) (inputs rest : list (Input (hook core f)))
  (c : nat) (s : State (hook core f)) :
  let H := hook core f in
  let b := fst (life H born o inputs) in
  let tr := snd (life H born o inputs) in
  In (Subscribed H c setState) tr ->
  ~ In (Unsubscribed H c setState) tr ->
  forallb (fun i => negb (is_emit H i)) rest = true ->
  let b' := fst (run H born (Emit H c s :: rest) b) in
  state H b' = s /\ mirrors core f s (call_hook H b').
Proof.
  intros H b tr Hsub Hnot Hq b'.
  pose proof (wf_life H born o inputs) as Hwf.
  destruct (agrees_life H born o inputs) as (_ & _ & _ & _ & _ & _ & A7).
  destruct (A7 _ _ Hsub) as [Hal|Hu]; [|contradiction].
  assert (Es : state H b' = s).
  { unfold b', b. rewrite run_cons. cbn [fst].
    rewrite (state_run_quiet H born rest _ Hq). cbn [fst step].
    rewrite (emit_alive H c s _ Hwf Hal). reflexivity. }
  split; [exact Es|]. unfold call_hook. rewrite Es. apply mirrors_returned.
Qed.

Lemma snapshot_kept_until_next_witness :
  In (Subscribed pollHook 0 setState)
     (snd (life pollHook bornPoll (pollOptions "a" None) [])) /\
  ~ In (Unsubscribed pollHook 0 setState)
       (snd (life pollHook bornPoll (pollOptions "a" None) [])) /\
  forallb (fun i => negb (is_emit pollHook i))
    [Render pollHook (pollOptions "b" None); Unmount pollHook] = true /\
  state pollHook
    (fst (run pollHook bornPoll
            (Emit pollHook 0 votedSnapshot
               :: [Render pollHook (pollOptions "b" None); Unmount pollHook])
            pollMounted))
  = votedSnapshot.
Proof.
  split; [vm_compute; auto|].
  split; [vm_compute; intuition discriminate|].
  split; [reflexivity|].
  apply (snapshot_kept_until_next sampleCore Feature.poll bornPoll
           (pollOptions "a" None) []
           [Render pollHook (pollOptions "b" None); Unmount pollHook] 0 votedSnapshot).
  - vm_compute; auto.
  - vm_compute; intuition discriminate.
  - reflexivity.
Defined.

Lemma resets_of (core : Core) (H : HookSpec core) (a : Action H) (m : Method H) :
  forward H a = m -> is_async H a = false -> resets_through core H a m.
Proof.
  intros Hf Ha born o inputs now reply b. unfold b.
  destruct (ref_life H born o inputs) as [c Hc].
  exists c. split; [exact Hc|]. unfold invoke, finish. rewrite Hc, Hf, Ha.
  destruct reply; reflexivity.
Qed.

(** X6.  The four [reset] functions ([useSubscribe], [useForm],
    [useWaitlist], [useFeedback]) are plain functions: each makes exactly
    one call of the controller's [reset], without arguments, returns
    [undefined] when it returns, whatever it returns, and lets an
    exception it throws reach the caller. *)
Theorem resets_forwarded (core : Core) :
  resets_through core (useSubscribe core) Subscribe.reset Subscribe.Ctl.reset /\
  resets_through core (useForm core) Form.reset Form.Ctl.reset /\
  resets_through core (useWaitlist core) Waitlist.reset Waitlist.Ctl.reset /\
  resets_through core (useFeedback core) Feedback.reset Feedback.Ctl.reset.
Proof.
  split; [apply resets_of; reflexivity|].
  split; [apply resets_of; reflexivity|].
  split; apply resets_of; reflexivity.
Qed.

(** The mount of [usePoll] under [StrictMode], event by event. *)
Example usePoll_strict_mount :
  snd (strict_life pollHook bornPoll (pollOptions "a" None) [])
  = [Constructed pollHook 0 ("your-site-key", "https://api.seriph.xyz") ["a"];
     RefAssigned pollHook 0; Subscribed pollHook 0 setState;
     Called pollHook ByEffect 0 Poll.Ctl.fetch;
     Unsubscribed pollHook 0 setState;
     Constructed pollHook 1 ("your-site-key", "https://api.seriph.xyz") ["a"];
     RefAssigned pollHook 1; Subscribed pollHook 1 setState;
     Called pollHook ByEffect 1 Poll.Ctl.fetch].
Proof. reflexivity. Qed.

(** X7.  For each hook, over any life the number of controllers
    constructed is one, for the mount, plus the number of renders before
    the unmount in which the site key, the endpoint or the identifier
    differs from that of the render before; renders that leave the
    three as they are, calls of the returned functions, notifications
    and the unmount construct none.  Under [StrictMode] in a development
    build, where React runs the effect, its cleanup and the effect
    again at the mount, it is one more. *)
Theorem constructions_counted (core : Core) (f : Feature.t)
  (born : Config core -> list string -> Answer (hook core f))
  (o : Options (hook core f)) (inputs : list (Input (hook core f))) :
  let H := hook core f in
  (length (constructed H (snd (life H born o inputs)))
     = S (tuple_changes core f o inputs) /\
   length (heap H (fst (life H born o inputs)))
     = S (tuple_changes core f o inputs)) /\
  (length (constructed H (snd (strict_life H born o inputs)))
     = S (S (tuple_changes core f o inputs)) /\
   length (heap H (fst (strict_life H born o inputs)))
     = S (S (tuple_changes core f o inputs))).
Proof.
  intros H. rewrite <- reconfigurations_tuple. fold H. split.
  - pose proof (constructed_life H born (hook_arity core f) o inputs) as Hc.
    split; [exact Hc|].
    destruct (agrees_life H born o inputs) as (_ & A2 & _).
    rewrite A2, length_seq in Hc. exact Hc.
  - apply constructed_strict_life. apply hook_arity.
Qed.

(** X8.  [useAnnouncements] never returns the [announcements] list of a
    snapshot, and [usePoll] takes [hasVoted] from no snapshot: when the
    alive controller notifies and React renders, the returned [status]
    and [error] are the snapshot's, while the returned list ([hasVoted])
    is what the controller answers, whatever lists the snapshot holds. *)
Theorem derived_values_not_from_snapshot (core : Core) :
  (forall born o inputs d c k s o',
     let H := useAnnouncements core in
     let b := fst (life H born o inputs) in
     phase H b = Mounted d c ->
     heap H b !! c = Some k ->
     rendered H (fst (run H born [Emit H c s; Render H o'] b)) =
       Some {| Announcements.announcements := answer H k;
               Announcements.status := Announcements.St.status s;
               Announcements.error := Announcements.St.error s |}) /\
  (forall born o inputs d c k s o',
     let H := usePoll core in
     let b := fst (life H born o inputs) in
     phase H b = Mounted d c ->
     heap H b !! c = Some k ->
     rendered H (fst (run H born [Emit H c s; Render H o'] b)) =
       Some {| Poll.spread := s; Poll.hasVoted := answer H k |}).
Proof.
  split; intros born o inputs d c k s o' H b Hp Hk;
    pose proof (wf_life H born o inputs) as Hwf;
    pose proof Hwf as (_ & Ha & _);
    (destruct (Ha c) as [Hr _]; [unfold alive; fold b; rewrite Hp; reflexivity|]);
    fold b in Hr, Hwf;
    rewrite !run_cons; cbn [fst run step];
    rewrite (emit_alive H c s b Hwf) by (unfold alive; rewrite Hp; reflexivity);
    rewrite rendered_render by (cbn [set_state phase]; rewrite Hp; discriminate);
    unfold call_hook, query; cbn [set_state controllerRef heap state];
    rewrite Hr; cbv beta iota; unfold H, b in *; rewrite Hk; reflexivity.
Qed.

Lemma derived_values_not_from_snapshot_witness :
  phase announcementsHook
    (fst (life announcementsHook bornAnnouncements (announcementsOptions None) []))
    = Mounted [Some "your-site-key"; None] 0 /\
  rendered announcementsHook
    (fst (run announcementsHook bornAnnouncements
            [Emit announcementsHook 0 visibleSnapshot;
             Render announcementsHook (announcementsOptions None)]
            (fst (life announcementsHook bornAnnouncements
                    (announcementsOptions None) []))))
  = Some {| Announcements.announcements := [];
            Announcements.status := Status.success;
            Announcements.error := None |}.
Proof.
  split; [reflexivity|].
  destruct (derived_values_not_from_snapshot sampleCore) as [Hann _].
  apply (Hann bornAnnouncements (announcementsOptions None) []
           [Some "your-site-key"; None] 0
           (@Build_Controller sampleCore announcementsHook
              ("your-site-key", "https://api.seriph.xyz") []
              (announcementsOptions None) [setState] [])
           visibleSnapshot (announcementsOptions None)); reflexivity.
Defined.

(** X9.  For the read-oriented hooks (and trivially for the others,
    whose effects call nothing): wherever an effect calls the initial
    read on a controller, the bridge's listener is registered on that
    controller at that point, so no notification the read causes is
    missed. *)
Theorem read_after_subscribe (core : Core) (f : Feature.t)
  (born : Config core -> list string -> Answer (hook core f))
  (o : Options (hook core f)) (inputs : list (Input (hook core f)))
  (pre post : list (Event (hook core f))) (c : nat) (m : Method (hook core f)) :
  let H := hook core f in
  snd (life H born o inputs) = pre ++ Called H ByEffect c m :: post ->
  registered_after H pre = Some c.
Proof.
  intros H Htr. destruct (heard_life H born o inputs) as [Hh _].
  rewrite Htr in Hh. exact (reads_heard_prefix H None pre c m post Hh).
Qed.

Lemma read_after_subscribe_witness :
  snd (life pollHook bornPoll (pollOptions "a" None) [])
    = [Constructed pollHook 0 ("your-site-key", "https://api.seriph.xyz") ["a"];
       RefAssigned pollHook 0; Subscribed pollHook 0 setState]
      ++ Called pollHook ByEffect 0 Poll.Ctl.fetch :: [] /\
  registered_after pollHook
    [Constructed pollHook 0 ("your-site-key", "https://api.seriph.xyz") ["a"];
     RefAssigned pollHook 0; Subscribed pollHook 0 setState] = Some 0.
Proof.
  split; [reflexivity|].
  apply (read_after_subscribe sampleCore Feature.poll bornPoll (pollOptions "a" None) []
           _ [] 0 Poll.Ctl.fetch).
  reflexivity.
Defined.
